(** * bettergit.ui: the arrow-key undo-point selector

    A shallow embedding of [select_undo_point] and of the list prompt it
    falls back to ([select_from_list]), both from [src/bettergit/ui.py].

    Python integers are [Z]; a key (a [str] or [bytes] of length at most
    one) is a [string]; the names rebound by the nested routines
    ([current_pos], [menu_lines_printed]) are the fields of a record that
    is passed explicitly; the terminal, standard input and everything the
    routine prints or logs live in a [world] that a small state and
    exception monad threads through the calls.

    What can go wrong outside the function is part of the input: the
    import of [msvcrt] can fail, the terminal can be missing, each read
    of a key can deliver a byte, nothing, or an exception, and the list
    prompt can answer, give no answer, or raise.  Writing to standard
    output, logging and [termios.tcsetattr] are taken to succeed. *)

From Stdlib Require Import ZArith List String Ascii Bool Lia DecimalString.
Import ListNotations.

Local Open Scope string_scope.
Local Open Scope list_scope.
Local Open Scope Z_scope.

(** ** Python values *)

Module Py.

(** The exceptions that can reach the handlers of this module;
    [PromptError] stands for whatever the prompt library raises.
    [KeyboardInterrupt] derives from [BaseException] only; the others
    derive from [Exception]. *)
Inductive exn : Type :=
| ImportError
| TermiosError
| OSError
| IndexError
| ValueError
| PromptError
| KeyboardInterrupt.

(** [len(l)] *)
Definition len {A : Type} (l : list A) : Z := Z.of_nat (List.length l).

(** [l[i]]: a negative index counts from the end, anything out of range
    is an [IndexError]. *)
Definition getitem {A : Type} (l : list A) (i : Z) : A + exn :=
  let j := if i <? 0 then i + len l else i in
  if (j <? 0) || (len l <=? j) then inr IndexError
  else match nth_error l (Z.to_nat j) with
       | Some x => inl x
       | None => inr IndexError
       end.

(** [l.index(x)]: position of the first element equal to [x], or a
    [ValueError]. *)
Fixpoint index (l : list string) (x : string) : Z + exn :=
  match l with
  | [] => inr ValueError
  | y :: l' =>
      if String.eqb y x then inl 0
      else match index l' x with
           | inl i => inl (i + 1)
           | inr e => inr e
           end
  end.

(** Truth value of an [Optional[str]]: [None] and the empty string are
    false. *)
Definition truthy (r : option string) : bool :=
  match r with
  | None => false
  | Some s => negb (String.eqb s EmptyString)
  end.

(** [range(a, b)] *)
Definition range (a b : Z) : list Z :=
  map (fun k => a + Z.of_nat k) (seq 0 (Z.to_nat (b - a))).

End Py.

(** ** Viewport (lines 226-233 of [display_menu]) *)

Definition max_visible : Z := 10.

Definition visible_window (n current_pos : Z) : Z * Z :=
  let start_idx := Z.max 0 (current_pos - max_visible / 2) in
  let end_idx := Z.min n (start_idx + max_visible) in
  let start_idx :=
    if (end_idx - start_idx <? max_visible) && (start_idx >? 0)
    then Z.max 0 (end_idx - max_visible)
    else start_idx in
  (start_idx, end_idx).

(** ** The world outside the function *)

(** Terminal attributes as [termios.tcgetattr] returns them: the flag
    words of the terminal. *)
Definition termios_attrs : Type := list Z.

(** What one blocking read of a key delivers: one byte, the empty string
    of a stream at end of file, or an exception. *)
Inductive read_event : Type :=
| RByte (b : ascii)
| REof
| RFail (e : Py.exn).

(** What [inquirer.prompt] gives back for the one [List] question:
    an answers dictionary holding the chosen string, no answers, or an
    exception. *)
Inductive prompt_result : Type :=
| PAnswer (s : string)
| PNone
| PRaise (e : Py.exn).

(** What the function does to the outside, in order. *)
Inductive event : Type :=
| Write (s : string)
| Warning (msg : string)
| LogError (msg : string) (e : Py.exn)
| Tcgetattr
| Setraw
| Tcsetattr (a : termios_attrs)
| Prompt (message : string) (choices : list string).

(** The platform and the libraries the function runs on: whether
    [import msvcrt] succeeds, [os.name], whether standard input is a
    terminal (otherwise [termios.tcgetattr] raises), what [tty.setraw]
    does to the attributes, and how the user answers the list prompt. *)
Record environment : Type := {
  msvcrt_available : bool;
  os_name : string;
  stdin_isatty : bool;
  setraw_attrs : termios_attrs -> termios_attrs;
  inquirer_prompt : prompt_result
}.

Record world : Type := {
  term : termios_attrs;
  stdin : list read_event;
  trace : list event
}.

Definition set_term (a : termios_attrs) (w : world) : world :=
  {| term := a; stdin := stdin w; trace := trace w |}.

Definition set_stdin (l : list read_event) (w : world) : world :=
  {| term := term w; stdin := l; trace := trace w |}.

Definition log (e : event) (w : world) : world :=
  {| term := term w; stdin := stdin w; trace := trace w ++ [e] |}.

(** ** A state and exception monad *)

(** A computation ends with a value, with a raised exception, blocked in
    a read that never delivers, or (the key loop only) out of fuel. *)
Inductive result (A : Type) : Type :=
| Ok (a : A)
| Raise (e : Py.exn)
| Blocked
| OutOfFuel.
Arguments Ok {A} a.
Arguments Raise {A} e.
Arguments Blocked {A}.
Arguments OutOfFuel {A}.

Definition M (A : Type) : Type := world -> result A * world.

Definition ret {A : Type} (a : A) : M A := fun w => (Ok a, w).

Definition raise {A : Type} (e : Py.exn) : M A := fun w => (Raise e, w).

Definition bind {A B : Type} (c : M A) (k : A -> M B) : M B :=
  fun w =>
    match c w with
    | (Ok a, w1) => k a w1
    | (Raise e, w1) => (Raise e, w1)
    | (Blocked, w1) => (Blocked, w1)
    | (OutOfFuel, w1) => (OutOfFuel, w1)
    end.

Declare Scope monad_scope.
Delimit Scope monad_scope with monad.
Notation "x <- c ;; k" := (bind c (fun x => k))
  (at level 100, c at next level, right associativity) : monad_scope.
Notation "c ;; k" := (bind c (fun _ => k))
  (at level 100, right associativity) : monad_scope.
Local Open Scope monad_scope.

(** [try: c finally: f]. A computation blocked inside [c] never gets to
    [f]; an exception of [f] replaces the outcome of [c]. *)
Definition try_finally {A : Type} (c : M A) (f : M unit) : M A :=
  fun w =>
    match c w with
    | (Ok a, w1) =>
        match f w1 with
        | (Ok _, w2) => (Ok a, w2)
        | (Raise e, w2) => (Raise e, w2)
        | (Blocked, w2) => (Blocked, w2)
        | (OutOfFuel, w2) => (OutOfFuel, w2)
        end
    | (Raise e, w1) =>
        match f w1 with
        | (Ok _, w2) => (Raise e, w2)
        | (Raise e', w2) => (Raise e', w2)
        | (Blocked, w2) => (Blocked, w2)
        | (OutOfFuel, w2) => (OutOfFuel, w2)
        end
    | (Blocked, w1) => (Blocked, w1)
    | (OutOfFuel, w1) => (OutOfFuel, w1)
    end.

(** [try: c except ...: h], the handler [h] choosing by the exception. *)
Definition try_except {A : Type} (c : M A) (h : Py.exn -> M A) : M A :=
  fun w =>
    match c w with
    | (Raise e, w1) => h e w1
    | r => r
    end.

Definition emit (e : event) : M unit := fun w => (Ok tt, log e w).

Definition lift {A : Type} (x : A + Py.exn) : M A :=
  match x with
  | inl a => ret a
  | inr e => raise e
  end.

(** [for x in l: body], threading the names the body rebinds. *)
Fixpoint for_each {A S : Type} (l : list A) (body : A -> S -> M S) (s : S)
  : M S :=
  match l with
  | [] => ret s
  | x :: l' => s' <- body x s ;; for_each l' body s'
  end.

(** ** Library calls *)

Definition chr (n : nat) : string := String (ascii_of_nat n) EmptyString.

Definition ESC : string := chr 27.
Definition CR : string := chr 13.
Definition LF : string := chr 10.
Definition ETX : string := chr 3.
Definition xE0 : string := chr 224.

(** [print(s)] and [print(s, end='')] *)
Definition print (s : string) : M unit := emit (Write (s ++ LF)).
Definition print_end_empty (s : string) : M unit := emit (Write s).

Definition print_warning (msg : string) : M unit := emit (Warning msg).

Definition logger_error (msg : string) (e : Py.exn) : M unit :=
  emit (LogError msg e).

Definition import_msvcrt (env : environment) : M unit :=
  if msvcrt_available env then ret tt else raise Py.ImportError.

(** One blocking read of one key: [sys.stdin.read(1)]. *)
Definition sys_stdin_read1 : M string :=
  fun w =>
    match stdin w with
    | [] => (Blocked, w)
    | RByte b :: rest => (Ok (String b EmptyString), set_stdin rest w)
    | REof :: rest => (Ok EmptyString, set_stdin rest w)
    | RFail e :: rest => (Raise e, set_stdin rest w)
    end.

(** [msvcrt.getch()]: it always delivers one byte, so at the end of the
    input it waits. *)
Definition msvcrt_getch : M string :=
  fun w =>
    match stdin w with
    | [] => (Blocked, w)
    | RByte b :: rest => (Ok (String b EmptyString), set_stdin rest w)
    | REof :: rest => (Blocked, w)
    | RFail e :: rest => (Raise e, set_stdin rest w)
    end.

Definition termios_tcgetattr (env : environment) : M termios_attrs :=
  fun w =>
    if stdin_isatty env then (Ok (term w), log Tcgetattr w)
    else (Raise Py.TermiosError, log Tcgetattr w).

Definition tty_setraw (env : environment) : M unit :=
  fun w => (Ok tt, log Setraw (set_term (setraw_attrs env (term w)) w)).

Definition termios_tcsetattr (a : termios_attrs) : M unit :=
  fun w => (Ok tt, log (Tcsetattr a) (set_term a w)).

(** [inquirer.prompt] of one [List] question; the prompt library leaves
    the terminal as it found it. *)
Definition inquirer_prompt_list (env : environment) (message : string)
    (choices : list string) : M (option string) :=
  emit (Prompt message choices) ;;
  match inquirer_prompt env with
  | PAnswer s => ret (Some s)
  | PNone => ret None
  | PRaise e => raise e
  end.

(** ** [select_from_list] (lines 170-187) *)

Definition select_from_list (env : environment) (message : string)
    (choices : list string) : M (option string) :=
  try_except
    (match choices with
     | [] =>
         print_warning "No options available to select from." ;;
         ret None
     | _ :: _ =>
         answers <- inquirer_prompt_list env message choices ;;
         ret answers
     end)
    (fun e =>
       match e with
       | Py.KeyboardInterrupt => ret None
       | _ => logger_error "List selection failed" e ;; ret None
       end).

(** ** [select_undo_point] (lines 190-326) *)

(** The names the nested routines rebind.  ([header_displayed] is
    assigned once and never read; it has no field here.) *)
Record session : Type := {
  current_pos : Z;
  menu_lines_printed : Z
}.

Definition set_pos (p : Z) (s : session) : session :=
  {| current_pos := p; menu_lines_printed := menu_lines_printed s |}.

Definition clear_menu_lines (num_lines : Z) : M unit :=
  if num_lines >? 0 then
    for_each (Py.range 0 num_lines)
      (fun _ _ => print_end_empty (ESC ++ "[1A" ++ ESC ++ "[2K")) tt
  else ret tt.

Definition display_header (message : string) : M unit :=
  print (LF ++ message) ;;
  print "Use arrow keys to navigate, Enter to select, Esc or Ctrl+C to cancel" ;;
  print EmptyString.

Definition display_menu (choices : list string) (s : session) : M session :=
  clear_menu_lines (menu_lines_printed s) ;;
  let '(start_idx, end_idx) :=
    visible_window (Py.len choices) (current_pos s) in
  let lines_count := 0 in
  lines_count <-
    (if start_idx >? 0 then print "  ..." ;; ret (lines_count + 1)
     else ret lines_count) ;;
  lines_count <-
    for_each (Py.range start_idx end_idx)
      (fun i lines_count =>
         choice <- lift (Py.getitem choices i) ;;
         (if i <=? current_pos s then
            if i =? current_pos s then
              print (ESC ++ "[94m" ++ ESC ++ "[7m> " ++ choice ++ ESC ++ "[0m")
            else
              print (ESC ++ "[94m> " ++ choice ++ ESC ++ "[0m")
          else
            print ("  " ++ choice)) ;;
         ret (lines_count + 1))
      lines_count ;;
  lines_count <-
    (if end_idx <? Py.len choices then print "  ..." ;; ret (lines_count + 1)
     else ret lines_count) ;;
  ret {| current_pos := current_pos s; menu_lines_printed := lines_count |}.

(** How one turn of [while True] ends: the loop goes on with the session
    as it now is, or the function returns. *)
Inductive control : Type :=
| Continue (s : session)
| Return (v : option Z).

(** Lines 273-289, the branch for [os.name == 'nt']. *)
Definition nt_iteration (choices : list string) (s : session) : M control :=
  key <- msvcrt_getch ;;
  if String.eqb key xE0 then
    key <- msvcrt_getch ;;
    if String.eqb key "H" then
      if current_pos s >? 0 then
        s' <- display_menu choices (set_pos (current_pos s - 1) s) ;;
        ret (Continue s')
      else ret (Continue s)
    else if String.eqb key "P" then
      if current_pos s <? Py.len choices - 1 then
        s' <- display_menu choices (set_pos (current_pos s + 1) s) ;;
        ret (Continue s')
      else ret (Continue s)
    else ret (Continue s)
  else if String.eqb key CR then ret (Return (Some (current_pos s)))
  else if String.eqb key ESC then ret (Return None)
  else if String.eqb key ETX then ret (Return None)
  else ret (Continue s).

(** Lines 291-316, the branch for every other [os.name]. *)
Definition unix_iteration (env : environment) (choices : list string)
    (s : session) : M control :=
  old_settings <- termios_tcgetattr env ;;
  try_finally
    (tty_setraw env ;;
     key <- sys_stdin_read1 ;;
     if String.eqb key ESC then
       key2 <- sys_stdin_read1 ;;
       if String.eqb key2 "[" then
         key3 <- sys_stdin_read1 ;;
         if String.eqb key3 "A" then
           if current_pos s >? 0 then
             s' <- display_menu choices (set_pos (current_pos s - 1) s) ;;
             ret (Continue s')
           else ret (Continue s)
         else if String.eqb key3 "B" then
           if current_pos s <? Py.len choices - 1 then
             s' <- display_menu choices (set_pos (current_pos s + 1) s) ;;
             ret (Continue s')
           else ret (Continue s)
         else ret (Continue s)
       else if String.eqb key2 EmptyString then ret (Return None)
       else ret (Continue s)
     else if String.eqb key CR || String.eqb key LF then
       ret (Return (Some (current_pos s)))
     else if String.eqb key ETX then ret (Return None)
     else ret (Continue s))
    (termios_tcsetattr old_settings).

Definition iteration (env : environment) (choices : list string)
    (s : session) : M control :=
  if String.eqb (os_name env) "nt" then nt_iteration choices s
  else unix_iteration env choices s.

(** [while True]: every turn that goes on has read at least one key, so
    one unit of fuel per pending read event and one more is enough (see
    [key_loop_fuel]). *)
Fixpoint key_loop (env : environment) (choices : list string) (fuel : nat)
    (s : session) : M (option Z) :=
  match fuel with
  | O => fun w => (OutOfFuel, w)
  | S fuel' =>
      c <- iteration env choices s ;;
      match c with
      | Continue s' => key_loop env choices fuel' s'
      | Return v => ret v
      end
  end.

Definition initial_session : session :=
  {| current_pos := 0; menu_lines_printed := 0 |}.

(** The [try] block, lines 196-316. *)
Definition select_undo_point_body (env : environment) (message : string)
    (choices : list string) : M (option Z) :=
  import_msvcrt env ;;
  match choices with
  | [] =>
      print_warning "No options available to select from." ;;
      ret None
  | _ :: _ =>
      display_header message ;;
      s <- display_menu choices initial_session ;;
      fun w => key_loop env choices (S (List.length (stdin w))) s w
  end.

(** The [except Exception] handler, lines 320-326. *)
Definition select_undo_point_fallback (env : environment) (message : string)
    (choices : list string) (e : Py.exn) : M (option Z) :=
  logger_error "Undo selection failed" e ;;
  result <- select_from_list env message choices ;;
  if Py.truthy result then
    match result with
    | Some r => i <- lift (Py.index choices r) ;; ret (Some i)
    | None => ret None
    end
  else ret None.

Definition select_undo_point (env : environment) (message : string)
    (choices : list string) : M (option Z) :=
  try_except
    (select_undo_point_body env message choices)
    (fun e =>
       match e with
       | Py.KeyboardInterrupt => ret None
       | _ => select_undo_point_fallback env message choices e
       end).

(** ** The key decoder and the reaction to a key, read off the loop

    The two branches of the loop have the same leaves: move up (lines
    277-279 and 302-304), move down (281-283 and 306-308), return the
    cursor (285 and 312), return [None] (287, 289, 310 and 314), and fall
    through to the next turn.  [read_key_nt] and [read_key_unix] are the
    two trees of tests with the leaves named; [react] holds the leaves.
    [nt_iteration_decoded] and [unix_iteration_decoded] show that this
    reading of the loop is the loop. *)

Inductive key_event : Type :=
| MoveUp
| MoveDown
| Accept
| Cancel
| Ignore.

Definition read_key_nt : M key_event :=
  key <- msvcrt_getch ;;
  if String.eqb key xE0 then
    key <- msvcrt_getch ;;
    if String.eqb key "H" then ret MoveUp
    else if String.eqb key "P" then ret MoveDown
    else ret Ignore
  else if String.eqb key CR then ret Accept
  else if String.eqb key ESC then ret Cancel
  else if String.eqb key ETX then ret Cancel
  else ret Ignore.

Definition read_key_unix : M key_event :=
  key <- sys_stdin_read1 ;;
  if String.eqb key ESC then
    key2 <- sys_stdin_read1 ;;
    if String.eqb key2 "[" then
      key3 <- sys_stdin_read1 ;;
      if String.eqb key3 "A" then ret MoveUp
      else if String.eqb key3 "B" then ret MoveDown
      else ret Ignore
    else if String.eqb key2 EmptyString then ret Cancel
    else ret Ignore
  else if String.eqb key CR || String.eqb key LF then ret Accept
  else if String.eqb key ETX then ret Cancel
  else ret Ignore.

Definition react (choices : list string) (ev : key_event) (s : session)
  : M control :=
  match ev with
  | MoveUp =>
      if current_pos s >? 0 then
        s' <- display_menu choices (set_pos (current_pos s - 1) s) ;;
        ret (Continue s')
      else ret (Continue s)
  | MoveDown =>
      if current_pos s <? Py.len choices - 1 then
        s' <- display_menu choices (set_pos (current_pos s + 1) s) ;;
        ret (Continue s')
      else ret (Continue s)
  | Accept => ret (Return (Some (current_pos s)))
  | Cancel => ret (Return None)
  | Ignore => ret (Continue s)
  end.

(** The bracket of lines 293-295 and 315-316 around a computation. *)
Definition in_raw_mode {A : Type} (env : environment) (c : M A) : M A :=
  old_settings <- termios_tcgetattr env ;;
  try_finally (tty_setraw env ;; c) (termios_tcsetattr old_settings).

(** ** Computations that only write

    [outputs may_raise c P]: from every world, [c] only adds events to the
    trace, never blocks, ends in a value satisfying [P] or, when
    [may_raise] is set, in an exception. *)

Definition emitted (l : list event) (w : world) : world :=
  {| term := term w; stdin := stdin w; trace := trace w ++ l |}.

Definition outputs {A : Type} (may_raise : bool) (c : M A) (P : A -> Prop)
  : Prop :=
  forall w, exists r l,
    c w = (r, emitted l w) /\
    match r with
    | Ok a => P a
    | Raise _ => may_raise = true
    | Blocked | OutOfFuel => False
    end.

(** ** What a turn, the loop and the fallback guarantee *)

(** The cursor is an index of the list. *)
Definition in_range (choices : list string) (s : session) : Prop :=
  0 <= current_pos s < Py.len choices.

(** What [react] returns for an event. *)
Definition react_post (choices : list string) (ev : key_event) (s : session)
    (c : control) : Prop :=
  match ev, c with
  | MoveUp, Continue s' =>
      current_pos s' = Z.max 0 (current_pos s - 1)
  | MoveDown, Continue s' =>
      current_pos s' = Z.min (Py.len choices - 1) (current_pos s + 1)
  | Accept, Return v => v = Some (current_pos s)
  | Cancel, Return v => v = None
  | Ignore, Continue s' => s' = s
  | _, _ => False
  end.

(** What a decoder does to the world: it takes keys off the front of the
    pending input and nothing else; when it delivers an event it has
    taken at least one. *)
Definition decoder_spec (d : M key_event) : Prop :=
  forall w, exists r rest,
    d w = (r, set_stdin rest w) /\
    (List.length rest <= List.length (stdin w))%nat /\
    match r with
    | Ok _ => (List.length rest < List.length (stdin w))%nat
    | Raise _ | Blocked => True
    | OutOfFuel => False
    end.

(** One turn: it takes keys and no more; unless it is waiting for a key
    the terminal is as before; a turn that goes on has taken a key and
    keeps the cursor in range; a turn that returns an index returns the
    cursor. *)
Definition turn_post (choices : list string) (s : session) (w : world)
    (r : result control) (w' : world) : Prop :=
  (List.length (stdin w') <= List.length (stdin w))%nat /\
  match r with
  | Ok (Continue s') =>
      term w' = term w /\ in_range choices s' /\
      (List.length (stdin w') < List.length (stdin w))%nat
  | Ok (Return v) =>
      term w' = term w /\ forall i, v = Some i -> i = current_pos s
  | Raise _ => term w' = term w
  | Blocked => True
  | OutOfFuel => False
  end.

(** The loop, and the [try] block: unless waiting for a key, the terminal
    is as before and a returned index is inside the list. *)
Definition loop_post (choices : list string) (w : world)
    (r : result (option Z)) (w' : world) : Prop :=
  match r with
  | Ok v => term w' = term w /\ forall i, v = Some i -> 0 <= i < Py.len choices
  | Raise _ => term w' = term w
  | Blocked => True
  | OutOfFuel => False
  end.

Definition no_options : string := "No options available to select from.".

(** The prompt library answers with one of the strings it was given. *)
Definition prompt_answers_from (env : environment) (choices : list string)
  : Prop :=
  match inquirer_prompt env with
  | PAnswer s => In s choices
  | PNone | PRaise _ => True
  end.

(** What the fallback returns: the first index of a non-empty answer,
    [None] when there is no answer. *)
Definition fallback_post (env : environment) (choices : list string)
    (v : option Z) : Prop :=
  (forall i, v = Some i -> 0 <= i < Py.len choices) /\
  (forall s, inquirer_prompt env = PAnswer s -> s <> EmptyString ->
     exists i, Py.index choices s = inl i /\ v = Some i) /\
  ((forall s, inquirer_prompt env <> PAnswer s) -> v = None).

(** The events of the fallback: a log entry, the warning, the prompt. *)
Definition fallback_event (ev : event) : Prop :=
  match ev with
  | Warning _ | LogError _ _ | Prompt _ _ => True
  | Write _ | Tcgetattr | Setraw | Tcsetattr _ => False
  end.

(** ** Sample platforms and inputs *)

Definition clear_flags (a : termios_attrs) : termios_attrs :=
  map (fun _ => 0) a.

(** Windows: [msvcrt] imports and [os.name] is ['nt']. *)
Definition windows (p : prompt_result) : environment :=
  {| msvcrt_available := true; os_name := "nt"; stdin_isatty := true;
     setraw_attrs := clear_flags; inquirer_prompt := p |}.

(** Linux or macOS: [import msvcrt] fails. *)
Definition posix (p : prompt_result) : environment :=
  {| msvcrt_available := false; os_name := "posix"; stdin_isatty := true;
     setraw_attrs := clear_flags; inquirer_prompt := p |}.

(** A platform on which the [else] branch of the loop runs: [msvcrt]
    imports although [os.name] is not ['nt'].  [msvcrt] exists on
    Windows only, so this is no platform there is; it serves to run
    lines 291-316 as they are written. *)
Definition posix_with_msvcrt (p : prompt_result) : environment :=
  {| msvcrt_available := true; os_name := "posix"; stdin_isatty := true;
     setraw_attrs := clear_flags; inquirer_prompt := p |}.

Definition keys (bytes : string) : list read_event :=
  map RByte (list_ascii_of_string bytes).

Definition cooked : termios_attrs := [17664; 5; 191; 35387].

Definition start (pending : list read_event) : world :=
  {| term := cooked; stdin := pending; trace := [] |}.

(** ** Runs on logical events *)

(** The bytes a platform sends for an event. *)
Definition encode (env : environment) (ev : key_event) : list read_event :=
  if String.eqb (os_name env) "nt" then
    match ev with
    | MoveUp => keys (xE0 ++ "H")
    | MoveDown => keys (xE0 ++ "P")
    | Accept => keys CR
    | Cancel => keys ESC
    | Ignore => keys "x"
    end
  else
    match ev with
    | MoveUp => keys (ESC ++ "[A")
    | MoveDown => keys (ESC ++ "[B")
    | Accept => keys CR
    | Cancel => keys ETX
    | Ignore => keys "x"
    end.

(** The cursor after an event, in the words of the specification:
    [MoveUp] is [cursor -= 1 if cursor > 0], [MoveDown] is
    [cursor += 1 if cursor < N-1]. *)
Definition move (n : Z) (cursor : Z) (ev : key_event) : Z :=
  match ev with
  | MoveUp => if cursor >? 0 then cursor - 1 else cursor
  | MoveDown => if cursor <? n - 1 then cursor + 1 else cursor
  | Accept | Cancel | Ignore => cursor
  end.

Definition cursor_after (n : Z) (evs : list key_event) (cursor : Z) : Z :=
  fold_left (move n) evs cursor.

Definition is_move (ev : key_event) : Prop := ev = MoveUp \/ ev = MoveDown.

(** ** What a redraw writes *)

(** The text that moves up one line and clears it (line 212). *)
Definition erase_line : string := ESC ++ "[1A" ++ ESC ++ "[2K".

(** The text [print] writes for the marker of hidden items. *)
Definition more_marker : string := "  ..." ++ LF.

(** The text [print] writes for item [i] with the cursor at
    [current_pos] (lines 244-253). *)
Definition menu_line (choices : list string) (current_pos i : Z) : string :=
  let choice := nth (Z.to_nat i) choices EmptyString in
  (if i <=? current_pos then
     if i =? current_pos then
       ESC ++ "[94m" ++ ESC ++ "[7m> " ++ choice ++ ESC ++ "[0m"
     else ESC ++ "[94m> " ++ choice ++ ESC ++ "[0m"
   else "  " ++ choice) ++ LF.

(** The texts of one menu, top to bottom. *)
Definition menu_lines (choices : list string) (current_pos : Z)
  : list string :=
  let '(start_idx, end_idx) :=
    visible_window (Py.len choices) current_pos in
  (if start_idx >? 0 then [more_marker] else []) ++
  map (menu_line choices current_pos) (Py.range start_idx end_idx) ++
  (if end_idx <? Py.len choices then [more_marker] else []).

(** [writes c a l]: from every world [c] returns [a] and adds exactly the
    events [l]. *)
Definition writes {A : Type} (c : M A) (a : A) (l : list event) : Prop :=
  forall w, c w = (Ok a, emitted l w).

(** Number of line feeds in a text. *)
Fixpoint count_LF (s : string) : nat :=
  match s with
  | EmptyString => 0
  | String c s' => (if Ascii.eqb c "010" then 1 else 0) + count_LF s'
  end.

(** The events of the [try] block with a list that is not empty: texts
    written to standard output and, on the branch that is not for
    ['nt'], calls of [termios] and [tty]. *)
Definition session_event (env : environment) (ev : event) : Prop :=
  match ev with
  | Write _ => True
  | Tcgetattr | Setraw | Tcsetattr _ => String.eqb (os_name env) "nt" = false
  | Warning _ | LogError _ _ | Prompt _ _ => False
  end.

(** The three texts of the header (lines 216-218). *)
Definition header_lines (message : string) : list string :=
  [((LF ++ message) ++ LF)%string;
   ("Use arrow keys to navigate, Enter to select, Esc or Ctrl+C to cancel"
      ++ LF)%string;
   (EmptyString ++ LF)%string].

(** ** The prompts and displays around the selector

    The other functions of [src/bettergit/ui.py] write to the console
    and ask through the prompt library; none of them reads keys or
    touches the terminal mode.  They are modelled over their own
    outputs: every computation returns a value or an exception together
    with what it has shown, asked and logged, in order.  A character of
    a Rocq string stands for a character of a Python string; the emoji
    of the symbol table are spelled by their UTF-8 bytes and are never
    measured or sliced. *)

Module Console.

(** The exceptions seen here: [KeyboardInterrupt], which no handler for
    [Exception] catches, the [KeyError] of a dictionary subscript, and
    [Failure], any other exception, with its text. *)
Inductive exc : Type :=
| KeyboardInterrupt
| KeyError (key : string)
| Failure (text : string).

(** [str(e)] *)
Definition exc_text (e : exc) : string :=
  match e with
  | KeyboardInterrupt => EmptyString
  | KeyError key => "'" ++ key ++ "'"
  | Failure text => text
  end.

(** What [inquirer.prompt] gives for one question: an answers
    dictionary with the value, no answers, or an exception. *)
Inductive prompted (A : Type) : Type :=
| Answers (a : A)
| NoAnswers
| PromptRaises (e : exc).
Arguments Answers {A} a.
Arguments NoAnswers {A}.
Arguments PromptRaises {A} e.

Inductive question : Type :=
| Confirm (message : string) (default : bool)
| Text (message : string) (default : string)
| Password (message : string)
| Checkbox (message : string) (choices : list string).

(** What is handed to the console: a text, or a tree of labels. *)
#[warnings="-register-all"]
Inductive renderable : Type :=
| Str (s : string)
| Tree (label : string) (branches : list renderable).

Inductive out : Type :=
| ConsolePrint (content : renderable) (style : option string)
| StdoutPrint (content : renderable)
| Logged (msg : string)
| Asked (q : question).

(** The surroundings: the choice of symbols made at import, whether
    [console.print] raises for a content, the answers of the prompt
    library to each kind of question, and whether the git command that
    looks for an upstream raises. *)
Record oracle : Type := {
  can_use_emoji : bool;
  console_print_raises : renderable -> option exc;
  confirm_answer : prompted bool;
  text_answer : prompted string;
  password_answer : prompted string;
  checkbox_answer : prompted (list string);
  upstream_check_raises : option exc
}.

(** A computation: its value or exception, and its outputs. *)
Definition C (A : Type) : Type := (A + exc) * list out.

Definition ret {A : Type} (a : A) : C A := (inl a, []).

Definition raise {A : Type} (e : exc) : C A := (inr e, []).

Definition bind {A B : Type} (c : C A) (k : A -> C B) : C B :=
  match c with
  | (inl a, l) => let '(r, l') := k a in (r, l ++ l')
  | (inr e, l) => (inr e, l)
  end.

Definition emit (o : out) : C unit := (inl tt, [o]).

(** [try: c except ...: h] with a handler that takes every exception. *)
Definition try_except {A : Type} (c : C A) (h : exc -> C A) : C A :=
  match c with
  | (inr e, l) => let '(r, l') := h e in (r, l ++ l')
  | (inl a, l) => (inl a, l)
  end.

(** [try: c except Exception as e: h]: a [KeyboardInterrupt] goes
    through. *)
Definition except_Exception {A : Type} (c : C A) (h : exc -> C A) : C A :=
  try_except c
    (fun e =>
       match e with
       | KeyboardInterrupt => raise e
       | _ => h e
       end).

Declare Scope console_scope.
Delimit Scope console_scope with console.
Notation "x <- c ;; k" := (bind c (fun x => k))
  (at level 100, c at next level, right associativity) : console_scope.
Notation "c ;; k" := (bind c (fun _ => k))
  (at level 100, right associativity) : console_scope.
Local Open Scope console_scope.

(** [for x in l: body] *)
Fixpoint for_each {A : Type} (l : list A) (body : A -> C unit) : C unit :=
  match l with
  | [] => ret tt
  | x :: l' => body x ;; for_each l' body
  end.

(** [sep.join(l)] *)
Fixpoint join (sep : string) (l : list string) : string :=
  match l with
  | [] => EmptyString
  | [s] => s
  | s :: l' => s ++ sep ++ join sep l'
  end.

(** [str(n)] for an integer. *)
Definition str_of_int (n : Z) : string := NilZero.string_of_int (Z.to_int n).

(** [l[:stop]]: a negative [stop] counts from the end. *)
Definition slice_to {A : Type} (l : list A) (stop : Z) : list A :=
  if stop <? 0 then firstn (Z.to_nat (Py.len l + stop)) l
  else firstn (Z.to_nat stop) l.

(** [enumerate(l, start)] *)
Fixpoint enumerate {A : Type} (l : list A) (start : Z) : list (Z * A) :=
  match l with
  | [] => []
  | x :: l' => (start, x) :: enumerate l' (start + 1)
  end.

Definition console_print (o : oracle) (content : renderable)
    (style : option string) : C unit :=
  match console_print_raises o content with
  | None => emit (ConsolePrint content style)
  | Some e => raise e
  end.

Definition logger_error (msg : string) : C unit := emit (Logged msg).

(** *** The symbol tables (lines 32-73) *)

Definition SYMBOLS_emoji : list (string * string) :=
  [("success", "✅"); ("error", "❌"); ("warning", "⚠️"); ("info", "ℹ️");
   ("branch", "🌿"); ("file", "📄"); ("untracked", "❓"); ("staged", "➕");
   ("modified", "📝"); ("clipboard", "📋"); ("save", "💾"); ("remote", "🌐");
   ("user", "👤"); ("stash", "📦"); ("graph", "📊"); ("key", "🔑");
   ("lock", "🔒")].

Definition SYMBOLS_ascii : list (string * string) :=
  [("success", "v"); ("error", "X"); ("warning", "!"); ("info", "i");
   ("branch", "*"); ("file", "+"); ("untracked", "?"); ("staged", "+");
   ("modified", "M"); ("clipboard", "#"); ("save", "S"); ("remote", "@");
   ("user", "U"); ("stash", "B"); ("graph", "G"); ("key", "K");
   ("lock", "L")].

Definition SYMBOLS (o : oracle) : list (string * string) :=
  if can_use_emoji o then SYMBOLS_emoji else SYMBOLS_ascii.

(** [d[key]]; a dictionary display keeps the last value given for a
    key. *)
Fixpoint dict_get (d : list (string * string)) (key : string)
  : option string :=
  match d with
  | [] => None
  | (k, v) :: d' =>
      match dict_get d' key with
      | Some v' => Some v'
      | None => if String.eqb k key then Some v else None
      end
  end.

Definition getitem (d : list (string * string)) (key : string) : C string :=
  match dict_get d key with
  | Some v => ret v
  | None => raise (KeyError key)
  end.

(** *** Printing (lines 95-122) *)

Definition _safe_print (o : oracle) (content : renderable)
    (style : option string) : C unit :=
  except_Exception
    (console_print o content style)
    (fun e =>
       logger_error ("Console print failed: " ++ exc_text e) ;;
       emit (StdoutPrint content)).

Definition print_success (o : oracle) (message : string) : C unit :=
  sym <- getitem (SYMBOLS o) "success" ;;
  _safe_print o (Str (sym ++ " " ++ message)) (Some "bold green").

Definition print_error (o : oracle) (message : string) : C unit :=
  sym <- getitem (SYMBOLS o) "error" ;;
  _safe_print o (Str (sym ++ " " ++ message)) (Some "bold red").

Definition print_warning (o : oracle) (message : string) : C unit :=
  sym <- getitem (SYMBOLS o) "warning" ;;
  _safe_print o (Str (sym ++ " " ++ message)) (Some "bold yellow").

Definition print_info (o : oracle) (message : string) : C unit :=
  sym <- getitem (SYMBOLS o) "info" ;;
  _safe_print o (Str (sym ++ "  " ++ message)) (Some "bold blue").

(** *** The prompts (lines 125-167 and 329-345) *)

Definition inquirer_prompt {A : Type} (q : question) (answer : prompted A)
  : C (option A) :=
  emit (Asked q) ;;
  match answer with
  | Answers a => ret (Some a)
  | NoAnswers => ret None
  | PromptRaises e => raise e
  end.

Definition confirm (o : oracle) (message : string) (default : bool) : C bool :=
  try_except
    (answers <- inquirer_prompt (Confirm message default) (confirm_answer o) ;;
     ret (match answers with Some a => a | None => default end))
    (fun e =>
       match e with
       | KeyboardInterrupt => ret false
       | _ =>
           logger_error ("Confirmation prompt failed: " ++ exc_text e) ;;
           ret default
       end).

Definition prompt_text (o : oracle) (message : string) (default : string)
  : C string :=
  try_except
    (answers <- inquirer_prompt (Text message default) (text_answer o) ;;
     ret (match answers with Some a => a | None => default end))
    (fun e =>
       match e with
       | KeyboardInterrupt => ret default
       | _ =>
           logger_error ("Text prompt failed: " ++ exc_text e) ;;
           ret default
       end).

Definition prompt_password (o : oracle) (message : string) : C string :=
  try_except
    (answers <- inquirer_prompt (Password message) (password_answer o) ;;
     ret (match answers with Some a => a | None => EmptyString end))
    (fun e =>
       match e with
       | KeyboardInterrupt => ret EmptyString
       | _ =>
           logger_error ("Password prompt failed: " ++ exc_text e) ;;
           ret EmptyString
       end).

Definition select_multiple (o : oracle) (message : string)
    (choices : list string) : C (list string) :=
  try_except
    (match choices with
     | [] =>
         print_warning o "No options available to select from." ;;
         ret []
     | _ :: _ =>
         answers <- inquirer_prompt (Checkbox message choices)
                      (checkbox_answer o) ;;
         ret (match answers with Some a => a | None => [] end)
     end)
    (fun e =>
       match e with
       | KeyboardInterrupt => ret []
       | _ =>
           logger_error ("Multiple selection failed: " ++ exc_text e) ;;
           ret []
       end).

(** *** [require_confirmation] (lines 592-625) *)

Definition require_confirmation (o : oracle) (action target : string)
    (danger_level : string) : C bool :=
  except_Exception
    (if String.eqb danger_level "extreme" then
       if negb (String.eqb target EmptyString) then
         typed_target <-
           prompt_text o
             ("This is a dangerous operation. Type '" ++ target
                ++ "' to confirm:") EmptyString ;;
         ret (String.eqb typed_target target)
       else
         confirm o "This is a dangerous operation. Are you sure?" false
     else if String.eqb danger_level "high" then
       confirm o
         ("Are you sure you want to " ++ action
            ++ "? This cannot be easily undone.") false
     else if String.eqb danger_level "medium" then
       confirm o ("Are you sure you want to " ++ action ++ "?") true
     else ret true)
    (fun e =>
       logger_error ("Confirmation failed: " ++ exc_text e) ;;
       ret false).

(** *** [display_list] and [show_diff_preview] (lines 366-380, 574-589) *)

Definition display_list (o : oracle) (title : string) (items : list string)
    (numbered : bool) : C unit :=
  except_Exception
    ((if numbered then
        _safe_print o (Str (LF ++ "[bold cyan]" ++ title ++ "[/bold cyan]"))
          None ;;
        for_each (enumerate items 1)
          (fun '(i, item) =>
             _safe_print o (Str ("  " ++ str_of_int i ++ ". " ++ item)) None)
      else
        _safe_print o (Str (LF ++ "[bold cyan]" ++ title ++ "[/bold cyan]"))
          None ;;
        for_each items
          (fun item => _safe_print o (Str ("  • " ++ item)) None)) ;;
     _safe_print o (Str EmptyString) None)
    (fun e =>
       logger_error ("List display failed: " ++ exc_text e) ;;
       print_error o ("Failed to display list: " ++ exc_text e)).

Definition show_diff_preview (o : oracle) (files : list string) (limit : Z)
  : C unit :=
  except_Exception
    (match files with
     | [] => print_info o "No files would be affected."
     | _ :: _ =>
         let display_files := slice_to files limit in
         let display_files :=
           if Py.len files >? limit then
             display_files
               ++ [("... and " ++ str_of_int (Py.len files - limit)
                      ++ " more files")%string]
           else display_files in
         display_list o "Files that would be affected:" display_files false
     end)
    (fun e =>
       logger_error ("Diff preview failed: " ++ exc_text e) ;;
       print_error o ("Failed to show diff preview: " ++ exc_text e)).

(** *** [display_git_graph] (lines 393-411) *)

(** A commit dictionary, by the keys the function reads. *)
Record commit : Type := {
  hash : option string;
  author : option string;
  message : option string;
  date : option string
}.

(** [d.get(key, default)] *)
Definition get_default {A : Type} (x : option A) (default : A) : A :=
  match x with
  | Some a => a
  | None => default
  end.

(** The loop of lines 398-406, with the branches added so far. *)
Fixpoint add_commits (o : oracle) (commits : list commit)
    (branches : list renderable) : C (list renderable) :=
  match commits with
  | [] => ret branches
  | c :: commits' =>
      let commit_hash := substring 0 8 (get_default (hash c) "unknown") in
      let author := get_default (author c) "unknown" in
      let message := get_default (message c) "no message" in
      let date := get_default (date c) "unknown" in
      let commit_text :=
        ("[yellow]" ++ commit_hash ++ "[/yellow] [green]" ++ author
           ++ "[/green] [dim]" ++ date ++ "[/dim]")%string in
      sym <- getitem (SYMBOLS o) "file" ;;
      add_commits o commits'
        (branches ++ [Tree commit_text [Tree (sym ++ " " ++ message) []]])
  end.

Definition display_git_graph (o : oracle) (commits : list commit) : C unit :=
  except_Exception
    (sym <- getitem (SYMBOLS o) "clipboard" ;;
     branches <- add_commits o commits [] ;;
     _safe_print o (Tree (sym ++ " Commit History") branches) None)
    (fun e =>
       logger_error ("Git graph display failed: " ++ exc_text e) ;;
       print_error o ("Failed to display git graph: " ++ exc_text e)).

(** *** [display_status_summary] (lines 414-571) *)

(** An entry of [status['staged']]: a file name, or a pair of a file
    name and a kind of change. *)
Inductive staged_item : Type :=
| File (name : string)
| Change (name : string) (change_type : string).

(** The status dictionary, by the keys the function reads, each absent
    or holding a value of the type the function uses it at. *)
Record status : Type := {
  repo_state : option string;
  branch : option string;
  remote_branch : option string;
  ahead : option Z;
  behind : option Z;
  merge_conflicts : option (list string);
  staged : option (list staged_item);
  renamed : option (list string);
  copied : option (list string);
  modified : option (list string);
  untracked : option (list string);
  stash_count : option Z
}.

(** Truth of [status.get(key)] for a string and for a list. *)
Definition truthy_str (x : option string) : bool :=
  match x with
  | Some s => negb (String.eqb s EmptyString)
  | None => false
  end.

Definition truthy_list {A : Type} (x : option (list A)) : bool :=
  match x with
  | Some (_ :: _) => true
  | _ => false
  end.

(** [f"... and {len(l) - cap} more files"] after the first [cap] lines
    (lines 490-491, 521-522, 533-534, 544-545). *)
Definition more_files {A : Type} (l : list A) (cap : Z) : list string :=
  if Py.len l >? cap then
    [("    ... and " ++ str_of_int (Py.len l - cap) ++ " more files")%string]
  else [].

(** Lines 419-437. *)
Definition repo_state_block (o : oracle) (st : status)
    (content : list string) : C (list string) :=
  if truthy_str (repo_state st) then
    let state := get_default (repo_state st) EmptyString in
    content <-
      (if String.eqb state "MERGING" then
         sym <- getitem (SYMBOLS o) "warning" ;;
         ret (content ++
              [("[bold red]" ++ sym
                  ++ " You are in the middle of a merge[/bold red]")%string;
               "  (fix conflicts and run [yellow]'bit save'[/yellow] to conclude merge)"])
       else if String.eqb state "REBASING" then
         sym <- getitem (SYMBOLS o) "warning" ;;
         ret (content ++
              [("[bold yellow]" ++ sym
                  ++ " You are in the middle of a rebase[/bold yellow]")%string;
               "  (fix conflicts and run [yellow]'git rebase --continue'[/yellow])"])
       else if String.eqb state "CHERRY-PICKING" then
         sym <- getitem (SYMBOLS o) "warning" ;;
         ret (content ++
              [("[bold yellow]" ++ sym
                  ++ " You are in the middle of a cherry-pick[/bold yellow]")%string;
               "  (fix conflicts and run [yellow]'git cherry-pick --continue'[/yellow])"])
       else if String.eqb state "REVERTING" then
         sym <- getitem (SYMBOLS o) "warning" ;;
         ret (content ++
              [("[bold yellow]" ++ sym
                  ++ " You are in the middle of a revert[/bold yellow]")%string;
               "  (fix conflicts and run [yellow]'git revert --continue'[/yellow])"])
       else if String.eqb state "BISECTING" then
         sym <- getitem (SYMBOLS o) "info" ;;
         ret (content ++
              [("[bold cyan]" ++ sym
                  ++ " You are in the middle of a bisect[/bold cyan]")%string;
               "  (run [yellow]'git bisect good/bad'[/yellow] to continue)"])
       else ret content) ;;
    ret (content ++ [EmptyString])
  else ret content.

(** [f"commit{'s' if n != 1 else ''}"] *)
Definition commits_word (n : Z) : string :=
  "commit" ++ (if negb (Z.eqb n 1) then "s" else EmptyString).

(** Lines 439-477. *)
Definition branch_block (o : oracle) (st : status) (content : list string)
  : C (list string) :=
  if truthy_str (branch st) then
    sym <- getitem (SYMBOLS o) "branch" ;;
    let branch_line :=
      (sym ++ " On branch [bold cyan]" ++ get_default (branch st) EmptyString
         ++ "[/bold cyan]")%string in
    content <-
      (if truthy_str (remote_branch st) then
         let remote := get_default (remote_branch st) EmptyString in
         let branch_line :=
           (branch_line ++ " tracking [cyan]" ++ remote ++ "[/cyan]")%string in
         let ahead := get_default (ahead st) 0 in
         let behind := get_default (behind st) 0 in
         if (ahead >? 0) && (behind >? 0) then
           ret (content ++
                [branch_line;
                 ("  Your branch and '" ++ remote ++ "' have diverged,")%string;
                 ("  and have " ++ str_of_int ahead ++ " and "
                    ++ str_of_int behind
                    ++ " different commits each, respectively.")%string;
                 "  (use [yellow]'bit pull'[/yellow] to merge the remote branch into yours)"])
         else if ahead >? 0 then
           ret (content ++
                [branch_line;
                 ("  Your branch is ahead of '" ++ remote ++ "' by "
                    ++ str_of_int ahead ++ " " ++ commits_word ahead
                    ++ ".")%string;
                 "  (use [yellow]'bit push'[/yellow] to publish your local commits)"])
         else if behind >? 0 then
           ret (content ++
                [branch_line;
                 ("  Your branch is behind '" ++ remote ++ "' by "
                    ++ str_of_int behind ++ " " ++ commits_word behind
                    ++ ".")%string;
                 "  (use [yellow]'bit pull'[/yellow] to update your local branch)"])
         else
           ret (content ++
                [branch_line;
                 ("  Your branch is up to date with '" ++ remote
                    ++ "'.")%string])
       else
         let content := content ++ [branch_line] in
         match upstream_check_raises o with
         | None => ret content
         | Some _ => ret (content ++ ["  No commits yet."])
         end) ;;
    ret (content ++ [EmptyString])
  else ret content.

(** Lines 479-492. *)
Definition conflicts_block (o : oracle) (st : status) (content : list string)
  : C (list string) :=
  if truthy_list (merge_conflicts st) then
    let conflicts := get_default (merge_conflicts st) [] in
    sym <- getitem (SYMBOLS o) "error" ;;
    ret (content ++
         [("[bold red]" ++ sym ++ " You have unmerged paths.[/bold red]")%string;
          "  (fix conflicts and run [yellow]'bit save'[/yellow] to conclude merge)";
          "  (use [yellow]'bit save --abort'[/yellow] to abort the merge)";
          EmptyString;
          "[bold red]Unmerged paths:[/bold red]";
          "  (use [yellow]'git add <file>...'[/yellow] to mark resolution)"] ++
         map (fun file => ("    [red]both modified:   " ++ file ++ "[/red]")%string)
           (slice_to conflicts 10) ++
         more_files conflicts 10 ++
         [EmptyString])
  else ret content.

(** Lines 495-505: the list [staged_files]. *)
Definition staged_files (st : status) : list (string * string) :=
  (if truthy_list (staged st) then
     map (fun item =>
            match item with
            | Change name change_type => (name, change_type)
            | File name => (name, "modified")
            end)
       (get_default (staged st) [])
   else []) ++
  (if truthy_list (renamed st)
   then map (fun f => (f, "renamed")) (get_default (renamed st) [])
   else []) ++
  (if truthy_list (copied st)
   then map (fun f => (f, "copied")) (get_default (copied st) [])
   else []).

(** Lines 511-520: the line of one staged file. *)
Definition staged_line (entry : string * string) : string :=
  let '(file, change_type) := entry in
  if String.eqb change_type "renamed" then
    "    [green]renamed:    " ++ file ++ "[/green]"
  else if String.eqb change_type "copied" then
    "    [green]copied:     " ++ file ++ "[/green]"
  else if String.eqb change_type "deleted" then
    "    [green]deleted:    " ++ file ++ "[/green]"
  else if String.eqb change_type "new file" then
    "    [green]new file:   " ++ file ++ "[/green]"
  else
    "    [green]modified:   " ++ file ++ "[/green]".

(** Lines 507-523. *)
Definition staged_block (st : status) (content : list string) : list string :=
  let staged_files := staged_files st in
  match staged_files with
  | [] => content
  | _ :: _ =>
      content ++
      ["[bold green]Changes to be committed:[/bold green]";
       "  (use [yellow]'bit undo'[/yellow] to unstage)"] ++
      map staged_line (slice_to staged_files 15) ++
      more_files staged_files 15 ++
      [EmptyString]
  end.

(** Lines 526-535. *)
Definition modified_block (st : status) (content : list string)
  : list string :=
  if truthy_list (modified st) then
    let modified := get_default (modified st) [] in
    content ++
    ["[bold red]Changes not staged for commit:[/bold red]";
     "  (use [yellow]'bit save'[/yellow] to stage and commit)";
     "  (use [yellow]'git checkout -- <file>...'[/yellow] to discard changes)"] ++
    map (fun file => ("    [red]modified:   " ++ file ++ "[/red]")%string)
      (slice_to modified 15) ++
    more_files modified 15 ++
    [EmptyString]
  else content.

(** Lines 538-546. *)
Definition untracked_block (st : status) (content : list string)
  : list string :=
  if truthy_list (untracked st) then
    let untracked := get_default (untracked st) [] in
    content ++
    ["[bold red]Untracked files:[/bold red]";
     "  (use [yellow]'bit save'[/yellow] to include in what will be committed)"] ++
    map (fun file => ("    [red]" ++ file ++ "[/red]")%string)
      (slice_to untracked 15) ++
    more_files untracked 15 ++
    [EmptyString]
  else content.

(** Lines 549-553. *)
Definition stash_block (o : oracle) (st : status) (content : list string)
  : C (list string) :=
  if get_default (stash_count st) 0 >? 0 then
    let stash_count := get_default (stash_count st) 0 in
    sym <- getitem (SYMBOLS o) "stash" ;;
    ret (content ++
         [(sym ++ " You have " ++ str_of_int stash_count ++ " stash"
             ++ (if negb (Z.eqb stash_count 1) then "es" else EmptyString))%string;
          "  (use [yellow]'bit list stashes'[/yellow]s to see them)";
          EmptyString])
  else ret content.

(** The test of lines 556-559: nothing staged, modified, untracked,
    conflicting, renamed or copied. *)
Definition no_changes (st : status) : bool :=
  negb (truthy_list (staged st) || truthy_list (modified st)
        || truthy_list (untracked st) || truthy_list (merge_conflicts st)
        || truthy_list (renamed st) || truthy_list (copied st)).

(** Lines 556-563. *)
Definition clean_block (o : oracle) (st : status) (content : list string)
  : C (list string) :=
  if no_changes st then
    if (get_default (ahead st) 0 =? 0) && (get_default (behind st) 0 =? 0)
    then
      sym <- getitem (SYMBOLS o) "success" ;;
      ret (content ++
           [("[bold green]" ++ sym
               ++ " Nothing to commit, working tree clean[/bold green]")%string])
    else
      sym <- getitem (SYMBOLS o) "success" ;;
      ret (content ++
           [("[bold green]" ++ sym ++ " Working tree clean[/bold green]")%string])
  else ret content.

(** Lines 417-563: the list [content] when the display is reached. *)
Definition status_content (o : oracle) (st : status) : C (list string) :=
  content <- repo_state_block o st [] ;;
  content <- branch_block o st content ;;
  content <- conflicts_block o st content ;;
  let content := staged_block st content in
  let content := modified_block st content in
  let content := untracked_block st content in
  content <- stash_block o st content ;;
  clean_block o st content.

Definition display_status_summary (o : oracle) (st : status) : C unit :=
  except_Exception
    (content <- status_content o st ;;
     match content with
     | [] => ret tt
     | _ :: _ => console_print o (Str (join LF content)) None
     end)
    (fun e =>
       logger_error ("Status display failed: " ++ exc_text e) ;;
       print_error o ("Failed to display status: " ++ exc_text e)).

End Console.

(** ** Reading the outputs of the console functions *)

(** What reached the screen, by the console or by plain [print]. *)
Definition shown (l : list Console.out) : list Console.renderable :=
  flat_map (fun o =>
              match o with
              | Console.ConsolePrint c _ | Console.StdoutPrint c => [c]
              | _ => []
              end) l.

(** The questions that were asked. *)
Definition asked (l : list Console.out) : list Console.question :=
  flat_map (fun o =>
              match o with
              | Console.Asked q => [q]
              | _ => []
              end) l.

(** The console is never interrupted while it prints. *)
Definition uninterrupted (o : Console.oracle) : Prop :=
  forall c, Console.console_print_raises o c <> Some Console.KeyboardInterrupt.

(** The symbol in use for a key of the tables. *)
Definition symbol (o : Console.oracle) (key : string) : string :=
  match Console.dict_get (Console.SYMBOLS o) key with
  | Some v => v
  | None => EmptyString
  end.

(** A console on which everything works and nothing is answered. *)
Definition quiet (emoji : bool) : Console.oracle :=
  {| Console.can_use_emoji := emoji;
     Console.console_print_raises := fun _ => None;
     Console.confirm_answer := Console.NoAnswers;
     Console.text_answer := Console.NoAnswers;
     Console.password_answer := Console.NoAnswers;
     Console.checkbox_answer := Console.NoAnswers;
     Console.upstream_check_raises := None |}.

(** The lines of [display_list]: the title, an item, the closing blank. *)
Definition list_title (title : string) : Console.renderable :=
  Console.Str (LF ++ "[bold cyan]" ++ title ++ "[/bold cyan]").

Definition bullet_line (item : string) : Console.renderable :=
  Console.Str ("  • " ++ item).

Definition numbered_line (i : Z) (item : string) : Console.renderable :=
  Console.Str ("  " ++ Console.str_of_int i ++ ". " ++ item).

Definition preview_title : string := "Files that would be affected:".

Definition more_files_item (n : Z) : string :=
  "... and " ++ Console.str_of_int n ++ " more files".

(** The branch [display_git_graph] adds for a commit. *)
Definition commit_branch (o : Console.oracle) (c : Console.commit)
  : Console.renderable :=
  Console.Tree
    ("[yellow]"
       ++ substring 0 8 (Console.get_default (Console.hash c) "unknown")
       ++ "[/yellow] [green]"
       ++ Console.get_default (Console.author c) "unknown"
       ++ "[/green] [dim]"
       ++ Console.get_default (Console.date c) "unknown" ++ "[/dim]")
    [Console.Tree
       (symbol o "file" ++ " "
          ++ Console.get_default (Console.message c) "no message") []].

(** The list a block of the status summary returns when it returns. *)
Definition lines_of (c : Console.C (list string)) : list string :=
  match fst c with
  | inl l => l
  | inr _ => []
  end.

(** The last line of the summary when the working tree is clean. *)
Definition clean_line (o : Console.oracle) (st : Console.status) : string :=
  "[bold green]" ++ symbol o "success"
    ++ (if (Console.get_default (Console.ahead st) 0 =? 0)
           && (Console.get_default (Console.behind st) 0 =? 0)
        then " Nothing to commit, working tree clean"
        else " Working tree clean")
    ++ "[/bold green]".

(** A list of lines that is empty or ends with an empty line. *)
Definition closed (lines : list string) : Prop :=
  lines = [] \/ exists body, lines = body ++ [EmptyString].

(** ** Proof automation *)

(** Case analysis on the pending keys and on the tests of a decoder. *)
Ltac crunch_keys :=
  repeat (cbn;
          match goal with
          | |- _ = _ => reflexivity
          | |- context [match ?l with [] => _ | _ :: _ => _ end] =>
              is_var l; destruct l
          | |- context [match ?e with RByte _ => _ | REof => _ | RFail _ => _ end] =>
              is_var e; destruct e
          | |- context [Ascii.eqb ?a ?b] => destruct (Ascii.eqb a b)
          | |- context [String.eqb ?a ?b] => destruct (String.eqb a b)
          end).

(** The same, for the statements of [decoder_spec]. *)
Ltac crunch_decoder :=
  repeat (cbn;
          match goal with
          | |- exists r rest, (_, _) = _ /\ _ =>
              eexists; eexists; split; [ reflexivity | cbn; split; [ lia | ] ];
              first [ exact I | lia ]
          | |- context [match ?l with [] => _ | _ :: _ => _ end] =>
              is_var l; destruct l
          | |- context [match ?e with RByte _ => _ | REof => _ | RFail _ => _ end] =>
              is_var e; destruct e
          | |- context [Ascii.eqb ?a ?b] => destruct (Ascii.eqb a b)
          end).

(** A leaf of the fallback: name the events it added. *)
Ltac frame_leaf :=
  eexists; eexists;
  split;
  [ unfold emitted, log; cbn; rewrite <- ?app_assoc; cbn; reflexivity
  | split; [ repeat constructor | exact I ] ].

(** * Proofs *)

(** ** The viewport *)

Example visible_window_25_20 : visible_window 25 20 = (15, 25).
Proof. reflexivity. Qed.

Example visible_window_3_0 : visible_window 3 0 = (0, 3).
Proof. reflexivity. Qed.

Lemma visible_window_cases n c :
  1 <= n -> 0 <= c < n ->
  let '(s, e) := visible_window n c in
  0 <= s /\ s <= c /\ c < e /\ e <= n /\ e - s <= max_visible /\ e - s <= n.
Proof.
  intros Hn Hc. unfold visible_window, max_visible.
  change (10 / 2) with 5.
  destruct (_ && _) eqn:E.
  - apply andb_true_iff in E as [E1 E2]. rewrite Z.gtb_ltb in E2.
    apply Z.ltb_lt in E1, E2. lia.
  - rewrite Z.gtb_ltb in E.
    apply andb_false_iff in E as [E | E]; apply Z.ltb_ge in E; lia.
Qed.

(** ** The decoders are the loop's *)

Lemma nt_iteration_decoded choices s w :
  nt_iteration choices s w = (ev <- read_key_nt ;; react choices ev s) w.
Proof.
  unfold nt_iteration, read_key_nt, bind, msvcrt_getch.
  generalize (stdin w) as keys. intros keys. crunch_keys.
Qed.

Lemma unix_iteration_decoded env choices s w :
  unix_iteration env choices s w
  = in_raw_mode env (ev <- read_key_unix ;; react choices ev s) w.
Proof.
  unfold unix_iteration, in_raw_mode, read_key_unix, bind, try_finally,
    termios_tcgetattr, tty_setraw, sys_stdin_read1.
  destruct (stdin_isatty env); [ | reflexivity ].
  cbn. generalize (stdin w) as keys. intros keys. crunch_keys.
Qed.

(** ** Computations that only write *)

Lemma emitted_nil w : emitted [] w = w.
Proof. destruct w. unfold emitted. cbn. now rewrite app_nil_r. Qed.

Lemma emitted_app l1 l2 w : emitted l2 (emitted l1 w) = emitted (l1 ++ l2) w.
Proof. unfold emitted. cbn. now rewrite app_assoc. Qed.

Lemma outputs_ret {A} mr (a : A) (P : A -> Prop) :
  P a -> outputs mr (ret a) P.
Proof.
  intros H w. exists (Ok a), []. now rewrite emitted_nil.
Qed.

Lemma outputs_emit mr e : outputs mr (emit e) (fun _ => True).
Proof. intros w. exists (Ok tt), [e]. now split. Qed.

Lemma outputs_bind {A B} mr (c : M A) (k : A -> M B) P Q :
  outputs mr c P ->
  (forall a, P a -> outputs mr (k a) Q) ->
  outputs mr (bind c k) Q.
Proof.
  intros Hc Hk w. unfold bind.
  destruct (Hc w) as (r & l & -> & Hr).
  destruct r as [a | e | | ]; try contradiction.
  - destruct (Hk a Hr (emitted l w)) as (r' & l' & -> & Hr').
    exists r', (l ++ l'). now rewrite emitted_app.
  - now exists (Raise e), l.
Qed.

Lemma outputs_weaken {A} mr (c : M A) (P Q : A -> Prop) :
  outputs mr c P -> (forall a, P a -> Q a) -> outputs mr c Q.
Proof.
  intros Hc HPQ w. destruct (Hc w) as (r & l & E & Hr).
  exists r, l. split; [ exact E | ].
  destruct r; auto.
Qed.

Lemma outputs_may_raise {A} (c : M A) P : outputs false c P -> outputs true c P.
Proof.
  intros Hc w. destruct (Hc w) as (r & l & E & Hr).
  exists r, l. split; [ exact E | ].
  destruct r; auto.
Qed.

Lemma outputs_for_each {A S} mr (l : list A) (body : A -> S -> M S)
    (I : S -> Prop) :
  (forall x s, In x l -> I s -> outputs mr (body x s) I) ->
  forall s, I s -> outputs mr (for_each l body s) I.
Proof.
  induction l as [ | x l IH ]; intros Hbody s Hs; cbn.
  - now apply outputs_ret.
  - eapply outputs_bind.
    + apply Hbody; [ now left | exact Hs ].
    + intros s' Hs'. apply IH; [ | exact Hs' ].
      intros y t Hy. apply Hbody. now right.
Qed.

Lemma outputs_print mr s : outputs mr (print s) (fun _ => True).
Proof. apply outputs_emit. Qed.

(** ** Facts about the Python list operations *)

Lemma range_In a b i : In i (Py.range a b) -> a <= i < b.
Proof.
  unfold Py.range. rewrite in_map_iff.
  intros (k & <- & Hk). apply in_seq in Hk. lia.
Qed.

Lemma getitem_in_range {A} (l : list A) i :
  0 <= i < Py.len l -> exists x, Py.getitem l i = inl x.
Proof.
  unfold Py.getitem, Py.len. intros Hi.
  destruct (i <? 0) eqn:E1; [ apply Z.ltb_lt in E1; lia | ].
  rewrite E1. cbn.
  destruct (Z.of_nat (List.length l) <=? i) eqn:E2;
    [ apply Z.leb_le in E2; lia | ].
  destruct (nth_error l (Z.to_nat i)) as [ x | ] eqn:E3.
  - now exists x.
  - apply nth_error_None in E3. lia.
Qed.

Lemma index_first (l : list string) (x : string) :
  In x l ->
  exists i, Py.index l x = inl i /\ 0 <= i < Py.len l /\
    nth_error l (Z.to_nat i) = Some x /\
    forall j, (j < Z.to_nat i)%nat -> nth_error l j <> Some x.
Proof.
  unfold Py.len.
  induction l as [ | y l IH ]; intros Hin; [ contradiction | ].
  cbn [Py.index]. destruct (String.eqb y x) eqn:E.
  - apply String.eqb_eq in E. subst y. exists 0.
    repeat split; cbn [List.length]; lia.
  - apply String.eqb_neq in E.
    destruct Hin as [ -> | Hin ]; [ contradiction | ].
    destruct (IH Hin) as (i & -> & Hi & Hnth & Hfirst).
    exists (i + 1). cbn [List.length].
    replace (Z.to_nat (i + 1)) with (S (Z.to_nat i)) by lia.
    repeat split; try lia; [ exact Hnth | ].
    intros [ | j ] Hj; cbn.
    + congruence.
    + apply Hfirst. lia.
Qed.

Lemma index_raises l s ex : Py.index l s = inr ex -> ex = Py.ValueError.
Proof.
  revert ex. induction l as [ | y l IH ]; cbn; intros ex E.
  - congruence.
  - destruct (String.eqb y s); [ discriminate | ].
    destruct (Py.index l s); [ discriminate | ].
    injection E as <-. now apply IH.
Qed.

(** ** Rendering *)

Lemma clear_menu_lines_outputs mr n :
  outputs mr (clear_menu_lines n) (fun _ => True).
Proof.
  unfold clear_menu_lines. destruct (n >? 0).
  - apply outputs_for_each with (I := fun _ => True); [ | exact I ].
    intros _ _ _ _. apply outputs_emit.
  - now apply outputs_ret.
Qed.

Lemma marker_outputs mr (b : bool) (n : Z) :
  outputs mr (if b then print "  ..." ;; ret (n + 1) else ret n)
    (fun _ => True).
Proof.
  destruct b.
  - eapply outputs_bind; [ apply outputs_print | ].
    intros _ _. now apply outputs_ret.
  - now apply outputs_ret.
Qed.

(** With the cursor inside the list, a redraw prints and returns, leaving
    the cursor where it is: no subscript of [choices] is out of range. *)
Lemma display_menu_outputs choices s :
  in_range choices s ->
  outputs false (display_menu choices s)
    (fun s' => current_pos s' = current_pos s).
Proof.
  intros Hs. unfold display_menu.
  eapply outputs_bind; [ apply clear_menu_lines_outputs | ].
  intros _ _.
  assert (1 <= Py.len choices) as Hn by (unfold in_range in Hs; lia).
  pose proof (visible_window_cases _ _ Hn Hs) as Hw.
  destruct (visible_window (Py.len choices) (current_pos s))
    as [start_idx end_idx].
  eapply outputs_bind; [ apply marker_outputs | ].
  intros n0 _.
  eapply outputs_bind.
  - apply outputs_for_each with (I := fun _ => True); [ | exact I ].
    intros i n Hi _. apply range_In in Hi.
    destruct (getitem_in_range choices i) as (choice & ->); [ lia | ].
    cbn [lift].
    apply outputs_bind with (P := eq choice); [ now apply outputs_ret | ].
    intros ? <-.
    eapply outputs_bind; [ | intros _ _; now apply outputs_ret ].
    destruct (i <=? current_pos s); [ destruct (i =? current_pos s) | ];
      apply outputs_print.
  - intros n1 _.
    eapply outputs_bind; [ apply marker_outputs | ].
    intros n2 _. now apply outputs_ret.
Qed.

Lemma display_header_outputs message :
  outputs false (display_header message) (fun _ => True).
Proof.
  unfold display_header.
  eapply outputs_bind; [ apply outputs_print | intros _ _ ].
  eapply outputs_bind; [ apply outputs_print | intros _ _ ].
  apply outputs_print.
Qed.

(** ** One turn of the loop *)

Lemma react_outputs choices ev s :
  in_range choices s ->
  outputs false (react choices ev s) (react_post choices ev s).
Proof.
  intros Hs. unfold in_range in Hs.
  destruct ev; cbn [react react_post]; try (now apply outputs_ret).
  - destruct (current_pos s >? 0) eqn:E; rewrite Z.gtb_ltb in E.
    + apply Z.ltb_lt in E.
      eapply outputs_bind.
      * apply display_menu_outputs. unfold in_range. cbn. lia.
      * intros s' Hs'. apply outputs_ret. cbn in Hs' |- *. lia.
    + apply Z.ltb_ge in E. apply outputs_ret. cbn. lia.
  - destruct (current_pos s <? Py.len choices - 1) eqn:E.
    + apply Z.ltb_lt in E.
      eapply outputs_bind.
      * apply display_menu_outputs. unfold in_range. cbn. lia.
      * intros s' Hs'. apply outputs_ret. cbn in Hs' |- *. lia.
    + apply Z.ltb_ge in E. apply outputs_ret. cbn. lia.
Qed.

Lemma react_post_in_range choices ev s c :
  in_range choices s -> react_post choices ev s c ->
  match c with
  | Continue s' => in_range choices s'
  | Return (Some i) => i = current_pos s
  | Return None => True
  end.
Proof.
  unfold in_range, react_post. intros Hs.
  destruct ev, c as [ s' | [ i | ] ]; intros H;
    try contradiction; try congruence; try lia; try exact I.
Qed.

Lemma read_key_nt_spec : decoder_spec read_key_nt.
Proof.
  intros [t keys tr].
  unfold read_key_nt, bind, msvcrt_getch, ret, set_stdin.
  crunch_decoder.
Qed.

Lemma read_key_unix_spec : decoder_spec read_key_unix.
Proof.
  intros [t keys tr].
  unfold read_key_unix, bind, sys_stdin_read1, ret, set_stdin.
  crunch_decoder.
Qed.

Lemma decode_react_spec d choices s w :
  decoder_spec d -> in_range choices s ->
  exists r w',
    (ev <- d ;; react choices ev s) w = (r, w') /\
    term w' = term w /\ turn_post choices s w r w'.
Proof.
  intros Hd Hs. unfold bind.
  destruct (Hd w) as (r & rest & -> & Hle & Hr).
  destruct r as [ ev | e | | ]; try contradiction.
  - destruct (react_outputs choices ev s Hs (set_stdin rest w))
      as (r' & l & -> & Hr').
    exists r', (emitted l (set_stdin rest w)).
    split; [ reflexivity | ]. split; [ reflexivity | ].
    split; [ exact Hle | ].
    destruct r' as [ c | e | | ]; try contradiction; try discriminate.
    pose proof (react_post_in_range choices ev s c Hs Hr') as Hc.
    destruct c as [ s' | v ]; cbn.
    + split; [ reflexivity | ]. split; [ exact Hc | exact Hr ].
    + split; [ reflexivity | ]. intros i ->. exact Hc.
  - exists (Raise e), (set_stdin rest w). now repeat split.
  - exists Blocked, (set_stdin rest w). now repeat split.
Qed.

Lemma nt_iteration_spec choices s w :
  in_range choices s ->
  exists r w', nt_iteration choices s w = (r, w') /\ turn_post choices s w r w'.
Proof.
  intros Hs. rewrite nt_iteration_decoded.
  destruct (decode_react_spec read_key_nt choices s w read_key_nt_spec Hs)
    as (r & w' & E & _ & H).
  now exists r, w'.
Qed.

Lemma unix_iteration_spec env choices s w :
  in_range choices s ->
  exists r w',
    unix_iteration env choices s w = (r, w') /\ turn_post choices s w r w'.
Proof.
  intros Hs. rewrite unix_iteration_decoded.
  unfold in_raw_mode, termios_tcgetattr, tty_setraw.
  unfold bind at 1. destruct (stdin_isatty env).
  - unfold try_finally, bind at 1.
    set (w1 := log Setraw (set_term (setraw_attrs env (term (log Tcgetattr w)))
                             (log Tcgetattr w))).
    destruct (decode_react_spec read_key_unix choices s w1 read_key_unix_spec Hs)
      as (r & w' & -> & _ & Hle & Hr).
    change (stdin w1) with (stdin w) in Hle, Hr.
    destruct r as [ [ s' | v ] | e | | ]; try contradiction;
      eexists; eexists; (split; [ reflexivity | ]); cbn;
      (split; [ exact Hle | ]); try exact I; tauto.
  - exists (Raise Py.TermiosError), (log Tcgetattr w).
    split; [ reflexivity | ]. cbn. now split.
Qed.

Lemma iteration_spec env choices s w :
  in_range choices s ->
  exists r w',
    iteration env choices s w = (r, w') /\ turn_post choices s w r w'.
Proof.
  intros Hs. unfold iteration. destruct (String.eqb (os_name env) "nt").
  - now apply nt_iteration_spec.
  - now apply unix_iteration_spec.
Qed.

(** ** The loop and the [try] block *)

(** The loop never runs out of fuel when it is given more fuel than there
    are pending read events; whatever way it ends other than waiting for
    a key, the terminal is as it was, and a returned index is inside the
    list. *)
Lemma key_loop_fuel env choices fuel :
  forall s w,
    in_range choices s ->
    (List.length (stdin w) < fuel)%nat ->
    exists r w',
      key_loop env choices fuel s w = (r, w') /\ loop_post choices w r w'.
Proof.
  induction fuel as [ | fuel IH ]; intros s w Hs Hfuel; [ lia | ].
  cbn [key_loop]. unfold bind.
  destruct (iteration_spec env choices s w Hs) as (r & w1 & -> & Hle & Hr).
  destruct r as [ [ s' | v ] | e | | ]; try contradiction.
  - destruct Hr as (Ht & Hs' & Hlt).
    destruct (IH s' w1 Hs') as (r' & w' & -> & Hpost); [ lia | ].
    exists r', w'. split; [ reflexivity | ].
    unfold loop_post in *. rewrite <- Ht.
    exact Hpost.
  - destruct Hr as (Ht & Hv).
    exists (Ok v), w1. split; [ reflexivity | ]. cbn.
    split; [ exact Ht | ]. intros i Hi. rewrite (Hv i Hi). exact Hs.
  - exists (Raise e), w1. now split.
  - exists Blocked, w1. now split.
Qed.

Lemma body_spec env message choices w :
  exists r w',
    select_undo_point_body env message choices w = (r, w') /\
    loop_post choices w r w'.
Proof.
  unfold select_undo_point_body, import_msvcrt.
  destruct (msvcrt_available env).
  - destruct choices as [ | c cs ].
    + eexists; eexists; split; [ reflexivity | ]. cbn.
      split; [ reflexivity | discriminate ].
    + set (choices := c :: cs).
      assert (in_range choices initial_session) as H0.
      { unfold in_range, Py.len. cbn. lia. }
      unfold bind at 1. cbn [ret]. unfold bind at 1.
      destruct (display_header_outputs message w) as (r1 & l1 & -> & H1).
      destruct r1 as [ [] | | | ]; try contradiction; try discriminate.
      unfold bind at 1.
      destruct (display_menu_outputs choices initial_session H0 (emitted l1 w))
        as (r & l & -> & Hr).
      destruct r as [ s | | | ]; try contradiction; try discriminate.
      destruct (key_loop_fuel env choices
                  (S (List.length (stdin (emitted l (emitted l1 w)))))
                  s (emitted l (emitted l1 w)))
        as (r' & w' & -> & Hpost).
      * unfold in_range. rewrite Hr. exact H0.
      * lia.
      * exists r', w'. split; [ reflexivity | ]. exact Hpost.
  - exists (Raise Py.ImportError), w. split; reflexivity.
Qed.

(** ** The fallback *)

Lemma select_from_list_nil env message w :
  select_from_list env message [] w = (Ok None, log (Warning no_options) w).
Proof. reflexivity. Qed.

Lemma select_from_list_cons env message c cs w :
  select_from_list env message (c :: cs) w =
  let w1 := log (Prompt message (c :: cs)) w in
  match inquirer_prompt env with
  | PAnswer s => (Ok (Some s), w1)
  | PNone => (Ok None, w1)
  | PRaise Py.KeyboardInterrupt => (Ok None, w1)
  | PRaise e => (Ok None, log (LogError "List selection failed" e) w1)
  end.
Proof.
  unfold select_from_list, try_except, inquirer_prompt_list, bind, emit.
  destruct (inquirer_prompt env) as [ s | | [ ] ]; reflexivity.
Qed.

Lemma fallback_spec env message choices e w :
  prompt_answers_from env choices ->
  exists v w',
    select_undo_point_fallback env message choices e w = (Ok v, w') /\
    term w' = term w /\ stdin w' = stdin w /\
    fallback_post env choices v.
Proof.
  unfold prompt_answers_from, fallback_post. intros Hp.
  unfold select_undo_point_fallback, bind, logger_error, emit.
  destruct choices as [ | c cs ].
  - rewrite select_from_list_nil. cbn.
    eexists; eexists; split; [ reflexivity | ].
    repeat split; try discriminate.
    intros s Hs. rewrite Hs in Hp. contradiction.
  - rewrite select_from_list_cons. cbv zeta.
    destruct (inquirer_prompt env) as [ s | | ex ] eqn:E.
    + destruct (index_first (c :: cs) s Hp) as (i & Hi & Hrange & _).
      unfold Py.truthy. destruct (String.eqb s EmptyString) eqn:Es; cbn [negb].
      * apply String.eqb_eq in Es.
        eexists; eexists; split; [ reflexivity | ].
        repeat split; try discriminate.
        intros s' [= <-] Hne. contradiction.
      * rewrite Hi. cbn.
        eexists; eexists; split; [ reflexivity | ].
        split; [ reflexivity | ]. split; [ reflexivity | ].
        split; [ | split ].
        { intros i' [= <-]. exact Hrange. }
        { intros s' [= <-] _. now exists i. }
        { intros H. now destruct (H s). }
    + eexists; eexists; split; [ reflexivity | ].
      repeat split; discriminate.
    + destruct ex; cbn;
        (eexists; eexists; split; [ reflexivity | ]);
        repeat split; discriminate.
Qed.

(** Whatever the prompt answers, the fallback reads no key, leaves the
    terminal alone, and can only fail in [choices.index]. *)
Lemma fallback_frame env message choices e w :
  exists r l,
    select_undo_point_fallback env message choices e w
    = (r, emitted (LogError "Undo selection failed" e :: l) w) /\
    Forall fallback_event l /\
    match r with
    | Ok _ | Raise Py.ValueError => True
    | _ => False
    end.
Proof.
  unfold select_undo_point_fallback, bind, logger_error, emit.
  destruct choices as [ | c cs ].
  - rewrite select_from_list_nil. frame_leaf.
  - rewrite select_from_list_cons. cbv zeta.
    destruct (inquirer_prompt env) as [ s | | ex ].
    + unfold Py.truthy. destruct (String.eqb s EmptyString); cbn [negb].
      * frame_leaf.
      * unfold lift.
        destruct (Py.index (c :: cs) s) as [ i | ex ] eqn:Ei.
        -- frame_leaf.
        -- apply index_raises in Ei. subst ex. frame_leaf.
    + frame_leaf.
    + destruct ex; frame_leaf.
Qed.

(** The fallback maps the answer back by first match: a non-empty answer
    that occurs in the list gives the index of its first occurrence,
    whichever occurrence the user meant. *)
Lemma fallback_first_match env message choices e w s :
  inquirer_prompt env = PAnswer s -> In s choices -> s <> EmptyString ->
  exists i,
    fst (select_undo_point_fallback env message choices e w) = Ok (Some i) /\
    0 <= i < Py.len choices /\
    nth_error choices (Z.to_nat i) = Some s /\
    forall j, (j < Z.to_nat i)%nat -> nth_error choices j <> Some s.
Proof.
  intros Ha Hin Hne.
  destruct (index_first choices s Hin) as (i & Hi & Hrange & Hnth & Hfirst).
  exists i. split; [ | now repeat split ].
  unfold select_undo_point_fallback, bind, logger_error, emit.
  destruct choices as [ | c cs ]; [ contradiction | ].
  rewrite select_from_list_cons, Ha. cbv zeta.
  unfold Py.truthy. apply String.eqb_neq in Hne. rewrite Hne. cbn [negb].
  now rewrite Hi.
Qed.

(** ** Runs on logical events *)

Lemma move_in_range n p ev : 0 <= p < n -> 0 <= move n p ev < n.
Proof.
  intros Hp. destruct ev; cbn; try exact Hp.
  - rewrite Z.gtb_ltb. destruct (0 <? p) eqn:E; [ apply Z.ltb_lt in E | ]; lia.
  - destruct (p <? n - 1) eqn:E; [ apply Z.ltb_lt in E | ]; lia.
Qed.

Lemma cursor_after_in_range n evs :
  forall p, 0 <= p < n -> 0 <= cursor_after n evs p < n.
Proof.
  unfold cursor_after.
  induction evs as [ | ev evs IH ]; intros p Hp; cbn; [ exact Hp | ].
  apply IH. now apply move_in_range.
Qed.

Lemma react_post_move choices ev s s' :
  in_range choices s -> react_post choices ev s (Continue s') ->
  current_pos s' = move (Py.len choices) (current_pos s) ev.
Proof.
  unfold in_range, react_post. intros Hs.
  destruct ev; cbn; try contradiction.
  - rewrite Z.gtb_ltb.
    destruct (0 <? current_pos s) eqn:E;
      [ apply Z.ltb_lt in E | apply Z.ltb_ge in E ]; lia.
  - destruct (current_pos s <? Py.len choices - 1) eqn:E;
      [ apply Z.ltb_lt in E | apply Z.ltb_ge in E ]; lia.
  - now intros ->.
Qed.

Lemma decode_encoded env ev w rest :
  stdin w = encode env ev ++ rest ->
  (if String.eqb (os_name env) "nt" then read_key_nt else read_key_unix) w
  = (Ok ev, set_stdin rest w).
Proof.
  destruct w as [t pending tr]. cbn. intros ->. unfold encode.
  destruct (String.eqb (os_name env) "nt"); destruct ev; reflexivity.
Qed.

(** A turn of the loop on the bytes of an event: the bytes are taken, the
    terminal is as before, and the turn ends as [react] says. *)
Lemma iteration_encoded env choices s ev w rest :
  stdin_isatty env = true ->
  in_range choices s ->
  stdin w = encode env ev ++ rest ->
  exists c w',
    iteration env choices s w = (Ok c, w') /\
    react_post choices ev s c /\
    stdin w' = rest /\ term w' = term w.
Proof.
  intros Htty Hs Hw.
  pose proof (decode_encoded env ev) as Hd.
  unfold iteration. destruct (String.eqb (os_name env) "nt").
  - rewrite nt_iteration_decoded. unfold bind.
    rewrite (Hd w rest Hw).
    destruct (react_outputs choices ev s Hs (set_stdin rest w))
      as (r & l & -> & Hr).
    destruct r as [ c | | | ]; try contradiction; try discriminate.
    exists c, (emitted l (set_stdin rest w)). now repeat split.
  - rewrite unix_iteration_decoded.
    unfold in_raw_mode, termios_tcgetattr, tty_setraw.
    unfold bind at 1. rewrite Htty.
    unfold try_finally, bind at 1.
    set (w1 := log Setraw (set_term (setraw_attrs env (term (log Tcgetattr w)))
                             (log Tcgetattr w))).
    unfold bind. rewrite (Hd w1 rest Hw).
    destruct (react_outputs choices ev s Hs (set_stdin rest w1))
      as (r & l & -> & Hr).
    destruct r as [ c | | | ]; try contradiction; try discriminate.
    eexists; eexists. split; [ reflexivity | ]. now repeat split.
Qed.

(** The loop fed the bytes of a sequence of arrow keys goes on, with the
    cursor where the specification puts it, the bytes taken and the
    terminal as before. *)
Lemma key_loop_moves env choices :
  stdin_isatty env = true ->
  forall moves fuel s w rest,
    Forall is_move moves ->
    in_range choices s ->
    stdin w = flat_map (encode env) moves ++ rest ->
    (List.length (stdin w) < fuel)%nat ->
    exists fuel' s' w',
      key_loop env choices fuel s w = key_loop env choices fuel' s' w' /\
      current_pos s' = cursor_after (Py.len choices) moves (current_pos s) /\
      in_range choices s' /\
      stdin w' = rest /\ term w' = term w /\
      (List.length rest < fuel')%nat.
Proof.
  intros Htty.
  induction moves as [ | ev moves IH ]; intros fuel s w rest Hm Hs Hw Hfuel.
  - exists fuel, s, w. cbn in Hw. rewrite Hw in Hfuel.
    split; [ reflexivity | ]. split; [ reflexivity | ].
    split; [ exact Hs | ]. split; [ exact Hw | ].
    split; [ reflexivity | exact Hfuel ].
  - destruct fuel as [ | fuel ]; [ lia | ].
    cbn [flat_map] in Hw. rewrite <- app_assoc in Hw.
    destruct (iteration_encoded env choices s ev w _ Htty Hs Hw)
      as (c & w1 & E & Hc & Hin & Ht).
    pose proof (react_post_in_range choices ev s c Hs Hc) as Hrange.
    inversion Hm as [ | ? ? Hev Hm' ]; subst.
    destruct c as [ s1 | v ];
      [ | destruct Hev as [ -> | -> ]; contradiction ].
    assert (encode env ev <> []) as Hne.
    { unfold encode. destruct (String.eqb (os_name env) "nt");
        destruct ev; discriminate. }
    destruct (IH fuel s1 w1 rest Hm' Hrange Hin) as
      (fuel' & s' & w' & E' & Hpos & Hs' & Hin' & Ht' & Hfuel').
    { rewrite Hin. rewrite Hw in Hfuel. rewrite length_app in Hfuel.
      destruct (encode env ev); [ contradiction | cbn in Hfuel; lia ]. }
    exists fuel', s', w'.
    split.
    { cbn [key_loop]. unfold bind. rewrite E. exact E'. }
    split.
    { rewrite Hpos. cbn.
      now rewrite (react_post_move choices ev s s1 Hs Hc). }
    split; [ exact Hs' | ]. split; [ exact Hin' | ].
    split; [ congruence | exact Hfuel' ].
Qed.

(** A whole call on the bytes of arrow keys followed by [Enter] or by a
    cancelling key: it returns, with the cursor the arrow keys lead to or
    with [None], all these bytes taken and the terminal as before. *)
Lemma select_undo_point_on_events env message choices moves final rest w :
  msvcrt_available env = true ->
  stdin_isatty env = true ->
  choices <> [] ->
  Forall is_move moves ->
  final = Accept \/ final = Cancel ->
  stdin w = flat_map (encode env) moves ++ encode env final ++ rest ->
  exists w',
    select_undo_point env message choices w
    = (Ok (match final with
           | Accept => Some (cursor_after (Py.len choices) moves 0)
           | _ => None
           end), w') /\
    stdin w' = rest /\ term w' = term w.
Proof.
  intros Hm Htty Hne Hmoves Hfinal Hw.
  unfold select_undo_point, try_except, select_undo_point_body, import_msvcrt.
  rewrite Hm. destruct choices as [ | c cs ]; [ contradiction | ].
  set (choices := c :: cs).
  assert (in_range choices initial_session) as H0.
  { unfold in_range, Py.len. cbn. lia. }
  unfold bind at 1. cbn [ret]. unfold bind at 1.
  destruct (display_header_outputs message w) as (r1 & l1 & -> & H1).
  destruct r1 as [ [] | | | ]; try contradiction; try discriminate.
  unfold bind at 1.
  destruct (display_menu_outputs choices initial_session H0 (emitted l1 w))
    as (r & l & -> & Hr).
  destruct r as [ s0 | | | ]; try contradiction; try discriminate.
  set (w2 := emitted l (emitted l1 w)).
  assert (in_range choices s0) as Hs0 by (unfold in_range; now rewrite Hr).
  destruct (key_loop_moves env choices Htty moves
              (S (List.length (stdin w2))) s0 w2
              (encode env final ++ rest) Hmoves Hs0 Hw)
    as (fuel' & s' & w' & -> & Hpos & Hs' & Hin & Ht & Hfuel); [ lia | ].
  destruct fuel' as [ | fuel' ]; [ lia | ].
  destruct (iteration_encoded env choices s' final w' rest Htty Hs' Hin)
    as (c' & w'' & E & Hc & Hin' & Ht').
  cbn [key_loop]. unfold bind. rewrite E.
  exists w''. rewrite Hr in Hpos. cbn [initial_session current_pos] in Hpos.
  destruct Hfinal as [ -> | -> ]; destruct c' as [ s'' | v ];
    try contradiction; cbn in Hc; subst v; cbn [ret];
    (split; [ first [ now rewrite Hpos | reflexivity ] | ]);
    (split; [ exact Hin' | ]);
    rewrite Ht', Ht; reflexivity.
Qed.

(** In the branch that reads escape sequences a byte after [ESC] that is
    not ['['] is read and dropped together with the [ESC]. *)
Lemma read_key_unix_escape_then_byte (w : world) (b : ascii)
    (rest : list read_event) :
  stdin w = RByte "027" :: RByte b :: rest -> b <> "["%char ->
  read_key_unix w = (Ok Ignore, set_stdin rest w).
Proof.
  intros Hw Hb. destruct w as [t pending tr]. cbn in Hw. subst pending.
  unfold read_key_unix, bind, sys_stdin_read1. cbn.
  apply Ascii.eqb_neq in Hb. rewrite Hb. reflexivity.
Qed.

(** The [else] branch does switch the terminal to raw mode around each
    read, and back. *)
Example unix_turn_trace :
  select_undo_point (posix_with_msvcrt PNone) "Pick one" ["a"; "b"]
    (start (keys CR))
  = (Ok (Some 0),
     {| term := cooked; stdin := [];
        trace := trace (snd (display_menu ["a"; "b"] initial_session
                               (snd (display_header "Pick one" (start []))))) ++
                 [Tcgetattr; Setraw; Tcsetattr cooked] |}).
Proof. reflexivity. Qed.

(** * The claims *)

(** C1: for every total [n >= 1] and cursor [0 <= c < n] the window that
    [display_menu] computes with [max_visible = 10] contains the cursor
    ([start <= c < end]), is no longer than [min(10, n)], and stays inside
    the list ([start >= 0], [end <= n]). *)
Theorem visible_window_bounds (n c : Z) :
  1 <= n -> 0 <= c < n ->
  let start_idx := fst (visible_window n c) in
  let end_idx := snd (visible_window n c) in
  start_idx <= c < end_idx /\
  end_idx - start_idx <= Z.min 10 n /\
  0 <= start_idx /\
  end_idx <= n.
Proof.
  intros Hn Hc.
  pose proof (visible_window_cases n c Hn Hc) as H.
  destruct (visible_window n c) as [s e]. cbn.
  unfold max_visible in H. lia.
Qed.

Lemma visible_window_bounds_witness :
  let start_idx := fst (visible_window 25 20) in
  let end_idx := snd (visible_window 25 20) in
  start_idx <= 20 < end_idx /\
  end_idx - start_idx <= Z.min 10 25 /\
  0 <= start_idx /\
  end_idx <= 25.
Proof. apply (visible_window_bounds 25 20); lia. Defined.

(** C2: whichever way [select_undo_point] ends (a key accepted, Escape or
    Ctrl+C, a read that fails or is interrupted, the fallback), the
    terminal attributes after the call are those before the call.  The
    only runs left out are those still waiting for a key, which have not
    returned; the loop never runs out of fuel. *)
Theorem terminal_restored env message choices w :
  match fst (select_undo_point env message choices w) with
  | Ok _ | Raise _ =>
      term (snd (select_undo_point env message choices w)) = term w
  | Blocked => True
  | OutOfFuel => False
  end.
Proof.
  unfold select_undo_point, try_except.
  destruct (body_spec env message choices w) as (rb & wb & -> & Hb).
  destruct rb as [ v | e | | ]; cbn in Hb |- *; try tauto.
  destruct (fallback_frame env message choices e wb) as (r & l & E & _ & Hr).
  destruct e; try (rewrite E; destruct r; cbn; tauto).
  exact Hb.
Qed.

(** C3: where [import msvcrt] fails, the [try] block raises [ImportError]
    before anything is checked or printed, the handler for [Exception]
    takes over and the call is the fallback: an error is logged, then
    [select_from_list] runs; no key is read, the terminal is not touched
    and no [termios] call is made. *)
Theorem no_msvcrt_falls_back env message choices w :
  msvcrt_available env = false ->
  select_undo_point_body env message choices w = (Raise Py.ImportError, w) /\
  select_undo_point env message choices w
  = select_undo_point_fallback env message choices Py.ImportError w /\
  select_undo_point_fallback env message choices Py.ImportError w
  = (result <- select_from_list env message choices ;;
     if Py.truthy result then
       match result with
       | Some r => i <- lift (Py.index choices r) ;; ret (Some i)
       | None => ret None
       end
     else ret None)
      (log (LogError "Undo selection failed" Py.ImportError) w) /\
  exists l,
    snd (select_undo_point env message choices w)
    = emitted (LogError "Undo selection failed" Py.ImportError :: l) w /\
    Forall fallback_event l.
Proof.
  intros Hm.
  assert (select_undo_point_body env message choices w
          = (Raise Py.ImportError, w)) as Hb.
  { unfold select_undo_point_body, import_msvcrt. now rewrite Hm. }
  split; [ exact Hb | ].
  assert (select_undo_point env message choices w
          = select_undo_point_fallback env message choices Py.ImportError w)
    as Hs.
  { unfold select_undo_point, try_except. now rewrite Hb. }
  split; [ exact Hs | ]. split; [ reflexivity | ].
  rewrite Hs.
  destruct (fallback_frame env message choices Py.ImportError w)
    as (r & l & -> & Hl & _).
  now exists l.
Qed.

Lemma no_msvcrt_falls_back_witness :
  let env := posix (PAnswer "b") in
  let w := start (keys CR) in
  msvcrt_available env = false /\
  select_undo_point env "Pick one" ["a"; "b"] w
  = select_undo_point_fallback env "Pick one" ["a"; "b"] Py.ImportError w /\
  select_undo_point env "Pick one" ["a"; "b"] w
  = (Ok (Some 1),
     emitted [LogError "Undo selection failed" Py.ImportError;
              Prompt "Pick one" ["a"; "b"]] w).
Proof.
  intros env w.
  split; [ reflexivity | ].
  destruct (no_msvcrt_falls_back env "Pick one" ["a"; "b"] w eq_refl)
    as (_ & H & _).
  split; [ exact H | reflexivity ].
Defined.

(** C4: with at least one option the cursor starts at 0, and after any
    sequence of [MoveUp] and [MoveDown] it is in [[0, N-1]]: the call fed
    these keys and then [Enter] returns the cursor the specification's
    clamped moves lead to, which is in range.  [MoveUp] at 0 and
    [MoveDown] at [N-1] leave the session and the world (so also what is
    on the screen) as they are. *)
Theorem cursor_stays_in_range env message choices moves rest t tr :
  msvcrt_available env = true ->
  stdin_isatty env = true ->
  choices <> [] ->
  Forall is_move moves ->
  let n := Py.len choices in
  let w := {| term := t;
              stdin := flat_map (encode env) moves ++ encode env Accept ++ rest;
              trace := tr |} in
  current_pos initial_session = 0 /\
  0 <= cursor_after n moves 0 <= n - 1 /\
  fst (select_undo_point env message choices w)
  = Ok (Some (cursor_after n moves 0)) /\
  (forall s w0, current_pos s = 0 ->
     react choices MoveUp s w0 = (Ok (Continue s), w0)) /\
  (forall s w0, current_pos s = n - 1 ->
     react choices MoveDown s w0 = (Ok (Continue s), w0)) /\
  (forall s t0 rest0 tr0, current_pos s = 0 ->
     nt_iteration choices s
       {| term := t0; stdin := keys (xE0 ++ "H") ++ rest0; trace := tr0 |}
     = (Ok (Continue s), {| term := t0; stdin := rest0; trace := tr0 |})) /\
  (forall s t0 rest0 tr0, current_pos s = n - 1 ->
     nt_iteration choices s
       {| term := t0; stdin := keys (xE0 ++ "P") ++ rest0; trace := tr0 |}
     = (Ok (Continue s), {| term := t0; stdin := rest0; trace := tr0 |})).
Proof.
  intros Hm Htty Hne Hmoves n w.
  assert (1 <= n) as Hn.
  { unfold n, Py.len. destruct choices; [ contradiction | cbn; lia ]. }
  split; [ reflexivity | ].
  split; [ pose proof (cursor_after_in_range n moves 0); lia | ].
  split.
  - destruct (select_undo_point_on_events env message choices moves Accept
                rest w Hm Htty Hne Hmoves (or_introl eq_refl) eq_refl)
      as (w' & -> & _).
    reflexivity.
  - assert (forall s w0, current_pos s = 0 ->
              react choices MoveUp s w0 = (Ok (Continue s), w0)) as Hup.
    { intros s w0 Hs. cbn [react]. now rewrite Hs. }
    assert (forall s w0, current_pos s = n - 1 ->
              react choices MoveDown s w0 = (Ok (Continue s), w0)) as Hdown.
    { intros s w0 Hs. cbn [react]. rewrite Hs. fold n.
      now rewrite Z.ltb_irrefl. }
    split; [ exact Hup | ]. split; [ exact Hdown | ].
    split; intros s t0 rest0 tr0 Hs; rewrite nt_iteration_decoded.
    + exact (Hup s _ Hs).
    + exact (Hdown s _ Hs).
Qed.

Lemma cursor_stays_in_range_witness :
  let env := windows PNone in
  let choices := ["a"; "b"; "c"] in
  let moves := [MoveDown; MoveDown; MoveDown; MoveUp; MoveUp; MoveUp; MoveUp;
                MoveDown] in
  let w := start (flat_map (encode env) moves ++ encode env Accept ++ []) in
  msvcrt_available env = true /\
  stdin_isatty env = true /\
  choices <> [] /\
  Forall is_move moves /\
  0 <= cursor_after 3 moves 0 <= 2 /\
  fst (select_undo_point env "Pick one" choices w)
  = Ok (Some (cursor_after 3 moves 0)).
Proof.
  intros env choices moves w.
  assert (choices <> []) as Hne by discriminate.
  assert (Forall is_move moves) as Hmoves.
  { repeat (apply Forall_cons; [ unfold is_move; auto | ]). apply Forall_nil. }
  split; [ reflexivity | ]. split; [ reflexivity | ].
  split; [ exact Hne | ]. split; [ exact Hmoves | ].
  destruct (cursor_stays_in_range env "Pick one" choices moves [] cooked []
              eq_refl eq_refl Hne Hmoves) as (_ & Hrange & Hrun & _).
  split; [ exact Hrange | exact Hrun ].
Defined.

(** C5: the decoders.  In the branch that reads escape sequences,
    [ESC '[' 'A'] is [MoveUp], [ESC '[' 'B'] is [MoveDown], byte 0x03 is
    [Cancel] and byte 0x0D is [Accept]; in the branch for ['nt'], whose
    special keys come as the prefix byte 0xE0 and a second byte, the
    prefix and ['H'] is [MoveUp], the prefix and ['P'] is [MoveDown],
    carriage return is [Accept], [ESC] is [Cancel] and 0x03 is [Cancel].
    Each takes exactly these bytes off the input, whatever follows, and
    a turn of the loop is its decoder followed by [react] on the
    event. *)
Theorem key_decoder_table (t : termios_attrs) (rest : list read_event)
    (tr : list event) :
  let w l := {| term := t; stdin := l; trace := tr |} in
  (read_key_unix (w (keys (ESC ++ "[A") ++ rest)) = (Ok MoveUp, w rest) /\
   read_key_unix (w (keys (ESC ++ "[B") ++ rest)) = (Ok MoveDown, w rest) /\
   read_key_unix (w (keys ETX ++ rest)) = (Ok Cancel, w rest) /\
   read_key_unix (w (keys CR ++ rest)) = (Ok Accept, w rest)) /\
  (read_key_nt (w (keys (xE0 ++ "H") ++ rest)) = (Ok MoveUp, w rest) /\
   read_key_nt (w (keys (xE0 ++ "P") ++ rest)) = (Ok MoveDown, w rest) /\
   read_key_nt (w (keys CR ++ rest)) = (Ok Accept, w rest) /\
   read_key_nt (w (keys ESC ++ rest)) = (Ok Cancel, w rest) /\
   read_key_nt (w (keys ETX ++ rest)) = (Ok Cancel, w rest)) /\
  (forall choices s w0,
     nt_iteration choices s w0
     = (ev <- read_key_nt ;; react choices ev s) w0) /\
  (forall env choices s w0,
     unix_iteration env choices s w0
     = in_raw_mode env (ev <- read_key_unix ;; react choices ev s) w0).
Proof.
  intros w.
  split; [ repeat split | ].
  split; [ repeat split | ].
  split.
  - apply nt_iteration_decoded.
  - apply unix_iteration_decoded.
Qed.

(** On ['nt'] the loop does not look at anything of the platform but
    the name: two platforms called ['nt'] run the same loop. *)
Lemma key_loop_nt env env' choices :
  String.eqb (os_name env) "nt" = true ->
  String.eqb (os_name env') "nt" = true ->
  forall fuel s w,
    key_loop env choices fuel s w = key_loop env' choices fuel s w.
Proof.
  intros Hn Hn'. induction fuel as [ | fuel IH ]; intros s w; [ reflexivity | ].
  cbn [key_loop]. unfold bind, iteration. rewrite Hn, Hn'.
  destruct (nt_iteration choices s w) as [ [ [ s' | v ] | e | | ] w' ];
    try reflexivity.
  apply IH.
Qed.

Lemma select_undo_point_nt env env' message choices w :
  String.eqb (os_name env) "nt" = true ->
  String.eqb (os_name env') "nt" = true ->
  msvcrt_available env = msvcrt_available env' ->
  inquirer_prompt env = inquirer_prompt env' ->
  select_undo_point env message choices w
  = select_undo_point env' message choices w.
Proof.
  intros Hn Hn' Hm Hp.
  assert (forall e w1,
            select_undo_point_fallback env message choices e w1
            = select_undo_point_fallback env' message choices e w1) as Hf.
  { intros e w1. unfold select_undo_point_fallback, select_from_list,
      inquirer_prompt_list. now rewrite Hp. }
  assert (forall w1,
            select_undo_point_body env message choices w1
            = select_undo_point_body env' message choices w1) as Hb.
  { intros w1. unfold select_undo_point_body, import_msvcrt. rewrite Hm.
    unfold bind.
    destruct (msvcrt_available env'); [ | reflexivity ].
    destruct choices as [ | c cs ]; [ reflexivity | ].
    cbn [ret].
    destruct (display_header message w1) as [ [ [] | e | | ] w2 ];
      try reflexivity.
    destruct (display_menu (c :: cs) initial_session w2)
      as [ [ s | e | | ] w3 ]; try reflexivity.
    apply (key_loop_nt env env' (c :: cs) Hn Hn'). }
  unfold select_undo_point, try_except. rewrite Hb.
  destruct (select_undo_point_body env' message choices w)
    as [ [ v | e | | ] w1 ]; try reflexivity.
  destruct e; try reflexivity; apply Hf.
Qed.

(** C6: [msvcrt] is a module of Windows, where [os.name] is ['nt'], so
    wherever the loop reads a key it runs the branch of lines 273-289.
    There a lone [ESC], after any number of arrow keys and whatever
    follows it (also nothing at all), cancels: the call returns [None]
    without waiting for another key, the terminal is as before, and of
    the input exactly the arrow keys and the one byte [ESC] are taken.
    The turn itself returns [None] on [ESC] and takes that byte only.
    The branch of lines 291-316, which no platform runs, gives [Cancel]
    when the read after [ESC] comes back empty (line 309), taking no
    byte after [ESC]. *)
Theorem lone_escape_cancels env message choices moves rest w :
  msvcrt_available env = true ->
  String.eqb (os_name env) "nt" = true ->
  choices <> [] ->
  Forall is_move moves ->
  stdin w = flat_map (encode env) moves ++ keys ESC ++ rest ->
  (exists w',
     select_undo_point env message choices w = (Ok None, w') /\
     stdin w' = rest /\ term w' = term w) /\
  (forall s t tr,
     nt_iteration choices s {| term := t; stdin := keys ESC ++ rest; trace := tr |}
     = (Ok (Return None), {| term := t; stdin := rest; trace := tr |})) /\
  (forall t tr,
     read_key_nt {| term := t; stdin := keys ESC ++ rest; trace := tr |}
     = (Ok Cancel, {| term := t; stdin := rest; trace := tr |})) /\
  (forall t tr,
     read_key_unix {| term := t; stdin := keys ESC ++ REof :: rest; trace := tr |}
     = (Ok Cancel, {| term := t; stdin := rest; trace := tr |})).
Proof.
  intros Hm Hn Hne Hmoves Hw.
  split; [ | repeat split ].
  set (env' := {| msvcrt_available := msvcrt_available env;
                  os_name := os_name env;
                  stdin_isatty := true;
                  setraw_attrs := setraw_attrs env;
                  inquirer_prompt := inquirer_prompt env |}).
  rewrite (select_undo_point_nt env env' message choices w Hn Hn
             eq_refl eq_refl).
  assert (encode env = encode env') as He by reflexivity.
  assert (keys ESC = encode env' Cancel) as Hc.
  { unfold encode. cbn [os_name env']. now rewrite Hn. }
  rewrite He, Hc in Hw.
  destruct (select_undo_point_on_events env' message choices moves Cancel rest w
              Hm eq_refl Hne Hmoves (or_intror eq_refl) Hw)
    as (w' & E & Hs & Ht).
  now exists w'.
Qed.

Lemma lone_escape_cancels_witness :
  let env := windows PNone in
  let w := start (keys (xE0 ++ "P" ++ ESC)) in
  msvcrt_available env = true /\
  String.eqb (os_name env) "nt" = true /\
  ["a"; "b"] <> [] /\
  Forall is_move [MoveDown] /\
  stdin w = flat_map (encode env) [MoveDown] ++ keys ESC ++ [] /\
  exists w',
    select_undo_point env "Pick one" ["a"; "b"] w = (Ok None, w') /\
    stdin w' = [] /\ term w' = term w.
Proof.
  intros env w.
  assert (Forall is_move [MoveDown]) as Hmv.
  { constructor; [ now right | constructor ]. }
  repeat (split; [ first [ reflexivity | discriminate | exact Hmv ] | ]).
  exact (proj1 (lone_escape_cancels env "Pick one" ["a"; "b"] [MoveDown] [] w
                  eq_refl eq_refl ltac:(discriminate) Hmv eq_refl)).
Defined.

(** C7: [Accept] ends the session with the current cursor.  This is what
    the turn of either branch does on [Enter]; on the options ["a"],
    ["b"], ["c"] under the header "Pick one", the keys of [MoveDown],
    [MoveDown], [Accept] give index 2, and the keys of [MoveUp],
    [Accept] give index 0, on both branches. *)
Theorem accept_returns_cursor :
  (forall choices s w,
     react choices Accept s w = (Ok (Return (Some (current_pos s))), w)) /\
  (forall choices s t rest tr,
     nt_iteration choices s {| term := t; stdin := keys CR ++ rest; trace := tr |}
     = (Ok (Return (Some (current_pos s))),
        {| term := t; stdin := rest; trace := tr |})) /\
  (forall p choices s t rest tr,
     unix_iteration (posix_with_msvcrt p) choices s
       {| term := t; stdin := keys CR ++ rest; trace := tr |}
     = (Ok (Return (Some (current_pos s))),
        {| term := t; stdin := rest;
           trace := ((tr ++ [Tcgetattr]) ++ [Setraw]) ++ [Tcsetattr t] |})) /\
  (fst (select_undo_point (windows PNone) "Pick one" ["a"; "b"; "c"]
          (start (flat_map (encode (windows PNone))
                    [MoveDown; MoveDown; Accept])))
   = Ok (Some 2) /\
   fst (select_undo_point (windows PNone) "Pick one" ["a"; "b"; "c"]
          (start (flat_map (encode (windows PNone)) [MoveUp; Accept])))
   = Ok (Some 0)) /\
  (fst (select_undo_point (posix_with_msvcrt PNone) "Pick one" ["a"; "b"; "c"]
          (start (flat_map (encode (posix_with_msvcrt PNone))
                    [MoveDown; MoveDown; Accept])))
   = Ok (Some 2) /\
   fst (select_undo_point (posix_with_msvcrt PNone) "Pick one" ["a"; "b"; "c"]
          (start (flat_map (encode (posix_with_msvcrt PNone))
                    [MoveUp; Accept])))
   = Ok (Some 0)).
Proof.
  split; [ reflexivity | ].
  split; [ reflexivity | ].
  split; [ reflexivity | ].
  split; split; vm_compute; reflexivity.
Qed.

(** C8, as the code has it: given that the prompt answers with one of the
    strings it was shown, [select_undo_point] never raises.  What the
    [try] block returns is returned, and a returned index is inside the
    list; a [KeyboardInterrupt] gives [None]; any other exception hands
    over to the fallback, which returns the first index of a non-empty
    answer and [None] when there is no answer. *)
Theorem select_undo_point_never_raises env message choices w :
  prompt_answers_from env choices ->
  let r := fst (select_undo_point env message choices w) in
  match fst (select_undo_point_body env message choices w) with
  | Ok v => r = Ok v /\ forall i, v = Some i -> 0 <= i < Py.len choices
  | Raise Py.KeyboardInterrupt => r = Ok None
  | Raise _ => exists v, r = Ok v /\ fallback_post env choices v
  | Blocked => r = Blocked
  | OutOfFuel => False
  end /\
  (forall s w0,
     react choices Accept s w0 = (Ok (Return (Some (current_pos s))), w0)) /\
  (forall s w0, react choices Cancel s w0 = (Ok (Return None), w0)).
Proof.
  intros Hp. split; [ | split; reflexivity ].
  unfold select_undo_point, try_except.
  destruct (body_spec env message choices w) as (rb & wb & -> & Hb).
  destruct rb as [ v | e | | ]; cbn in Hb |- *; try tauto.
  destruct (fallback_spec env message choices e wb Hp)
    as (v & w' & E & _ & _ & Hv).
  destruct e; try (rewrite E; exists v; now split).
  reflexivity.
Qed.

Lemma select_undo_point_never_raises_witness :
  let env := windows (PAnswer "b") in
  let w := start (keys (xE0 ++ "P" ++ CR)) in
  prompt_answers_from env ["a"; "b"] /\
  fst (select_undo_point_body env "Pick one" ["a"; "b"] w) = Ok (Some 1) /\
  fst (select_undo_point env "Pick one" ["a"; "b"] w) = Ok (Some 1) /\
  0 <= 1 < Py.len ["a"; "b"].
Proof.
  intros env w.
  assert (prompt_answers_from env ["a"; "b"]) as Hp.
  { unfold prompt_answers_from. simpl. auto. }
  split; [ exact Hp | ].
  destruct (select_undo_point_never_raises env "Pick one" ["a"; "b"] w Hp)
    as (H & _).
  assert (fst (select_undo_point_body env "Pick one" ["a"; "b"] w)
          = Ok (Some 1)) as Hb by reflexivity.
  rewrite Hb in H. destruct H as (H1 & H2).
  split; [ exact Hb | ]. split; [ exact H1 | ].
  apply H2. reflexivity.
Defined.

(** C8, as worded, fails: an internal error does not always give [None].
    On a platform without [msvcrt] the import fails, the fallback prompt
    is answered ["b"], and the call returns index 1; on Windows a read
    that raises [OSError] ends the same way. *)
Lemma internal_error_returns_index :
  fst (select_undo_point_body (posix (PAnswer "b")) "Pick one" ["a"; "b"]
         (start []))
  = Raise Py.ImportError /\
  fst (select_undo_point (posix (PAnswer "b")) "Pick one" ["a"; "b"]
         (start []))
  = Ok (Some 1) /\
  fst (select_undo_point_body (windows (PAnswer "b")) "Pick one" ["a"; "b"]
         (start [RFail Py.OSError]))
  = Raise Py.OSError /\
  fst (select_undo_point (windows (PAnswer "b")) "Pick one" ["a"; "b"]
         (start [RFail Py.OSError]))
  = Ok (Some 1) /\
  Ok (Some 1) <> Ok (@None Z).
Proof. repeat split; try reflexivity. discriminate. Qed.

(** C9: with an empty list of choices the function prints the warning
    and returns [None]; it reads no key and leaves the terminal alone.
    Where [msvcrt] imports the check of line 199 does it; elsewhere the
    same check in [select_from_list], after the logged import failure. *)
Theorem empty_choices_rejected env message w :
  select_undo_point env message [] w
  = (Ok None,
     emitted (if msvcrt_available env then [Warning no_options]
              else [LogError "Undo selection failed" Py.ImportError;
                    Warning no_options]) w) /\
  term (snd (select_undo_point env message [] w)) = term w /\
  stdin (snd (select_undo_point env message [] w)) = stdin w.
Proof.
  assert (select_undo_point env message [] w
          = (Ok None,
             emitted (if msvcrt_available env then [Warning no_options]
                      else [LogError "Undo selection failed" Py.ImportError;
                            Warning no_options]) w)) as E.
  { unfold select_undo_point, try_except, select_undo_point_body,
      import_msvcrt.
    destruct (msvcrt_available env); cbn; unfold emitted, log; cbn.
    - reflexivity.
    - now rewrite <- app_assoc. }
  rewrite E. now repeat split.
Qed.

(** C10 at the input where the code departs from it: the list holds the
    empty string twice, the import fails, the user picks the empty
    string in the fallback prompt.  [choices.index] would give 0, the
    first occurrence, but the test [if result:] takes the empty answer
    for no answer and the call returns [None]. *)
Theorem fallback_drops_empty_answer :
  let choices := [EmptyString; EmptyString] in
  let env := posix (PAnswer EmptyString) in
  let logged :=
    log (LogError "Undo selection failed" Py.ImportError) (start []) in
  Py.index choices EmptyString = inl 0 /\
  select_from_list env "Pick one" choices logged
  = (Ok (Some EmptyString), log (Prompt "Pick one" choices) logged) /\
  fst (select_undo_point env "Pick one" choices (start [])) = Ok None.
Proof. repeat split. Qed.

(** * Further properties of the selector *)

Lemma writes_ret {A} (a : A) : writes (ret a) a [].
Proof. intros w. now rewrite emitted_nil. Qed.

Lemma writes_emit e : writes (emit e) tt [e].
Proof. intros w. reflexivity. Qed.

Lemma writes_bind_ret {A B} (c : M A) (f : A -> B) a l :
  writes c a l -> writes (bind c (fun x => ret (f x))) (f a) l.
Proof. intros Hc w. unfold bind. now rewrite Hc. Qed.

Lemma writes_bind {A B} (c : M A) (k : A -> M B) a b l1 l2 :
  writes c a l1 -> writes (k a) b l2 -> writes (bind c k) b (l1 ++ l2).
Proof.
  intros Hc Hk w. unfold bind. rewrite Hc, Hk. now rewrite emitted_app.
Qed.

Lemma getitem_nth (l : list string) i :
  0 <= i < Py.len l -> Py.getitem l i = inl (nth (Z.to_nat i) l EmptyString).
Proof.
  intros Hi. destruct (getitem_in_range l i Hi) as (x & E). rewrite E.
  unfold Py.getitem, Py.len in *.
  destruct (i <? 0) eqn:E1; [ apply Z.ltb_lt in E1; lia | ].
  destruct ((i <? 0) || (Z.of_nat (List.length l) <=? i)); [ discriminate | ].
  destruct (nth_error l (Z.to_nat i)) as [ y | ] eqn:E3; [ | discriminate ].
  injection E as <-. f_equal. symmetry. now apply nth_error_nth.
Qed.

Lemma range_length a b : List.length (Py.range a b) = Z.to_nat (b - a).
Proof. unfold Py.range. now rewrite length_map, length_seq. Qed.

Lemma clear_menu_lines_writes n :
  writes (clear_menu_lines n) tt (repeat (Write erase_line) (Z.to_nat n)).
Proof.
  unfold clear_menu_lines. destruct (n >? 0) eqn:E.
  - rewrite <- (Z.sub_0_r n) at 2. rewrite <- range_length.
    generalize (Py.range 0 n). intros l.
    induction l as [ | x l IH ]; cbn [for_each repeat List.length].
    + apply writes_ret.
    + apply (writes_bind _ _ tt tt [Write erase_line]);
        [ apply writes_emit | exact IH ].
  - rewrite Z.gtb_ltb in E. apply Z.ltb_ge in E.
    replace (Z.to_nat n) with 0%nat by lia. apply writes_ret.
Qed.

Lemma menu_items_writes choices pos l :
  (forall i, In i l -> 0 <= i < Py.len choices) ->
  forall n,
    writes
      (for_each l
         (fun i lines_count =>
            choice <- lift (Py.getitem choices i) ;;
            (if i <=? pos then
               if i =? pos then
                 print (ESC ++ "[94m" ++ ESC ++ "[7m> " ++ choice ++ ESC ++ "[0m")
               else
                 print (ESC ++ "[94m> " ++ choice ++ ESC ++ "[0m")
             else
               print ("  " ++ choice)) ;;
            ret (lines_count + 1))
         n)
      (n + Z.of_nat (List.length l))
      (map (fun i => Write (menu_line choices pos i)) l).
Proof.
  induction l as [ | i l IH ]; intros Hl n; cbn [for_each map List.length].
  - rewrite Z.add_0_r. apply writes_ret.
  - apply (writes_bind _ _ (n + 1) _ [Write (menu_line choices pos i)]).
    + rewrite (getitem_nth choices i) by (apply Hl; now left). cbn [lift].
      apply (writes_bind _ _ (nth (Z.to_nat i) choices EmptyString) _ []
               ([Write (menu_line choices pos i)] ++ []));
        [ apply writes_ret | ].
      apply (writes_bind _ _ tt); [ | apply writes_ret ].
      unfold menu_line.
      destruct (i <=? pos); [ destruct (i =? pos) | ]; apply writes_emit.
    + replace (n + Z.of_nat (S (List.length l)))
        with ((n + 1) + Z.of_nat (List.length l)) by lia.
      apply IH. intros j Hj. apply Hl. now right.
Qed.

Lemma marker_writes (b : bool) (n : Z) :
  writes (if b then print "  ..." ;; ret (n + 1) else ret n)
    (if b then n + 1 else n)
    (if b then [Write more_marker] else []).
Proof.
  destruct b.
  - apply (writes_bind _ _ tt _ [Write more_marker] []);
      [ apply writes_emit | apply writes_ret ].
  - apply writes_ret.
Qed.

Lemma display_menu_writes choices s w :
  in_range choices s ->
  display_menu choices s w
  = (Ok {| current_pos := current_pos s;
           menu_lines_printed :=
             Z.of_nat (List.length (menu_lines choices (current_pos s))) |},
     emitted (repeat (Write erase_line) (Z.to_nat (menu_lines_printed s)) ++
              map Write (menu_lines choices (current_pos s))) w).
Proof.
  intros Hs. revert w. unfold display_menu, menu_lines.
  assert (1 <= Py.len choices) as Hn by (unfold in_range in Hs; lia).
  pose proof (visible_window_cases _ _ Hn Hs) as Hw.
  destruct (visible_window (Py.len choices) (current_pos s))
    as [start_idx end_idx].
  rewrite !map_app, map_map.
  replace (map Write (if start_idx >? 0 then [more_marker] else []))
    with (if start_idx >? 0 then [Write more_marker] else [])
    by (now destruct (start_idx >? 0)).
  replace (map Write (if end_idx <? Py.len choices then [more_marker] else []))
    with (if end_idx <? Py.len choices then [Write more_marker] else [])
    by (now destruct (end_idx <? Py.len choices)).
  apply (writes_bind _ _ tt); [ apply clear_menu_lines_writes | ].
  apply (writes_bind _ _ (if start_idx >? 0 then 0 + 1 else 0));
    [ apply marker_writes | ].
  eapply writes_bind.
  { apply menu_items_writes. intros i Hi. apply range_In in Hi. lia. }
  rewrite !length_app, length_map.
  match goal with
  | |- writes _ ?b _ =>
      replace b with
        ((fun n => {| current_pos := current_pos s; menu_lines_printed := n |})
           (if end_idx <? Py.len choices
            then (if start_idx >? 0 then 0 + 1 else 0)
                 + Z.of_nat (List.length (Py.range start_idx end_idx)) + 1
            else (if start_idx >? 0 then 0 + 1 else 0)
                 + Z.of_nat (List.length (Py.range start_idx end_idx))))
  end.
  { apply writes_bind_ret. apply marker_writes. }
  cbv beta. f_equal.
  destruct (start_idx >? 0), (end_idx <? Py.len choices); cbn [List.length]; lia.
Qed.

(** The menu shows exactly [min(10, N)] items. *)
Lemma visible_window_length n c :
  1 <= n -> 0 <= c < n ->
  snd (visible_window n c) - fst (visible_window n c) = Z.min 10 n.
Proof.
  intros Hn Hc. unfold visible_window, max_visible.
  change (10 / 2) with 5.
  destruct (_ && _) eqn:E; cbn [fst snd].
  - apply andb_true_iff in E as [E1 E2]. rewrite Z.gtb_ltb in E2.
    apply Z.ltb_lt in E1, E2. lia.
  - rewrite Z.gtb_ltb in E.
    apply andb_false_iff in E as [E | E]; apply Z.ltb_ge in E; lia.
Qed.

Lemma visible_window_closed_form n c :
  1 <= n -> 0 <= c < n ->
  visible_window n c
  = (Z.max 0 (Z.min (c - 5) (n - 10)),
     Z.max 0 (Z.min (c - 5) (n - 10)) + Z.min 10 n).
Proof.
  intros Hn Hc. unfold visible_window, max_visible.
  change (10 / 2) with 5.
  destruct (_ && _) eqn:E.
  - apply andb_true_iff in E as [E1 E2]. rewrite Z.gtb_ltb in E2.
    apply Z.ltb_lt in E1, E2. f_equal; lia.
  - rewrite Z.gtb_ltb in E.
    apply andb_false_iff in E as [E | E]; apply Z.ltb_ge in E; f_equal; lia.
Qed.

Lemma menu_lines_length choices c :
  1 <= Py.len choices -> 0 <= c < Py.len choices ->
  let n := Py.len choices in
  Z.of_nat (List.length (menu_lines choices c))
  = Z.min 10 n
    + (if (c >? 5) && (n >? 10) then 1 else 0)
    + (if (c + 5 <? n) && (n >? 10) then 1 else 0).
Proof.
  intros Hn Hc n. unfold menu_lines. fold n.
  rewrite (visible_window_closed_form n c Hn Hc).
  rewrite !length_app, length_map, range_length.
  rewrite !Z.gtb_ltb.
  destruct (0 <? Z.max 0 (Z.min (c - 5) (n - 10))) eqn:E1;
    destruct (Z.max 0 (Z.min (c - 5) (n - 10)) + Z.min 10 n <? n) eqn:E2;
    destruct (5 <? c) eqn:E3; destruct (10 <? n) eqn:E4;
    destruct (c + 5 <? n) eqn:E5;
    cbn [andb List.length];
    repeat match goal with
      | H : (_ <? _) = true |- _ => apply Z.ltb_lt in H
      | H : (_ <? _) = false |- _ => apply Z.ltb_ge in H
      end; lia.
Qed.

Lemma count_LF_app s1 s2 :
  count_LF (s1 ++ s2) = (count_LF s1 + count_LF s2)%nat.
Proof.
  induction s1 as [ | c s1 IH ]; cbn; [ reflexivity | ].
  rewrite IH. lia.
Qed.

Lemma menu_line_one_LF choices c i :
  Forall (fun choice => count_LF choice = 0%nat) choices ->
  count_LF (menu_line choices c i) = 1%nat.
Proof.
  intros Hc.
  assert (count_LF (nth (Z.to_nat i) choices EmptyString) = 0%nat) as H0.
  { destruct (nth_in_or_default (Z.to_nat i) choices EmptyString) as [ H | -> ];
      [ | reflexivity ].
    rewrite Forall_forall in Hc. now apply Hc. }
  unfold menu_line.
  destruct (i <=? c); [ destruct (i =? c) | ];
    rewrite !count_LF_app, H0; reflexivity.
Qed.

Lemma Forall_session_writes env (l : list string) :
  Forall (session_event env) (map Write l).
Proof. induction l; cbn; constructor; auto. exact I. Qed.

Lemma react_writes choices ev s w :
  in_range choices s ->
  exists c l,
    react choices ev s w = (Ok c, emitted (map Write l) w) /\
    react_post choices ev s c.
Proof.
  intros Hs.
  destruct (react_outputs choices ev s Hs w) as (r & l0 & E & Hr).
  assert (exists c l, react choices ev s w = (Ok c, emitted (map Write l) w))
    as (c & l & E').
  { unfold in_range in Hs. destruct ev; cbn [react].
    - destruct (current_pos s >? 0) eqn:Ep.
      + rewrite Z.gtb_ltb in Ep. apply Z.ltb_lt in Ep.
        unfold bind. rewrite display_menu_writes by (unfold in_range; cbn; lia).
        rewrite <- (map_repeat erase_line _ Write), <- map_app. eexists; eexists; reflexivity.
      + exists (Continue s), []. cbn. now rewrite emitted_nil.
    - destruct (current_pos s <? Py.len choices - 1) eqn:Ep.
      + apply Z.ltb_lt in Ep.
        unfold bind. rewrite display_menu_writes by (unfold in_range; cbn; lia).
        rewrite <- (map_repeat erase_line _ Write), <- map_app. eexists; eexists; reflexivity.
      + exists (Continue s), []. cbn. now rewrite emitted_nil.
    - eexists; exists []. cbn. now rewrite emitted_nil.
    - eexists; exists []. cbn. now rewrite emitted_nil.
    - eexists; exists []. cbn. now rewrite emitted_nil. }
  exists c, l. split; [ exact E' | ].
  rewrite E' in E. injection E as <- _. exact Hr.
Qed.

Lemma turn_trace env choices s w r w' :
  in_range choices s ->
  iteration env choices s w = (r, w') ->
  exists l, trace w' = trace w ++ l /\ Forall (session_event env) l.
Proof.
  intros Hs. unfold iteration.
  destruct (String.eqb (os_name env) "nt") eqn:Eos.
  - rewrite nt_iteration_decoded. unfold bind.
    destruct (read_key_nt_spec w) as (r0 & rest & -> & _ & _).
    destruct r0 as [ ev | e | | ].
    + destruct (react_writes choices ev s (set_stdin rest w) Hs)
        as (c & l & -> & _).
      intros [= <- <-]. exists (map Write l).
      split; [ reflexivity | apply Forall_session_writes ].
    + intros [= <- <-]. exists []. cbn. now rewrite app_nil_r.
    + intros [= <- <-]. exists []. cbn. now rewrite app_nil_r.
    + intros [= <- <-]. exists []. cbn. now rewrite app_nil_r.
  - rewrite unix_iteration_decoded.
    unfold in_raw_mode, termios_tcgetattr, tty_setraw.
    unfold bind at 1.
    assert (forall ev, In ev [Tcgetattr; Setraw; Tcsetattr (term w)] ->
                       session_event env ev) as Ht.
    { intros ev [ <- | [ <- | [ <- | [] ] ] ]; exact Eos. }
    destruct (stdin_isatty env).
    + unfold try_finally, bind at 1.
      set (w1 := log Setraw (set_term (setraw_attrs env (term (log Tcgetattr w)))
                               (log Tcgetattr w))).
      unfold bind.
      destruct (read_key_unix_spec w1) as (r0 & rest & -> & _ & _).
      destruct r0 as [ ev | e | | ].
      * destruct (react_writes choices ev s (set_stdin rest w1) Hs)
          as (c & l & -> & _).
        intros [= <- <-].
        exists ([Tcgetattr; Setraw] ++ map Write l ++ [Tcsetattr (term w)]).
        split; [ cbn; now rewrite <- !app_assoc | ].
        apply Forall_app. split.
        { repeat constructor; apply Ht; cbn; auto. }
        apply Forall_app. split; [ apply Forall_session_writes | ].
        repeat constructor. apply Ht. cbn. auto.
      * intros [= <- <-].
        exists [Tcgetattr; Setraw; Tcsetattr (term w)].
        split; [ cbn; now rewrite <- !app_assoc | ].
        rewrite Forall_forall. exact Ht.
      * intros [= <- <-]. exists [Tcgetattr; Setraw].
        split; [ cbn; now rewrite <- !app_assoc | ].
        repeat constructor; apply Ht; cbn; auto.
      * intros [= <- <-]. exists [Tcgetattr; Setraw].
        split; [ cbn; now rewrite <- !app_assoc | ].
        repeat constructor; apply Ht; cbn; auto.
    + intros [= <- <-]. exists [Tcgetattr].
      split; [ reflexivity | ]. repeat constructor. apply Ht. cbn. auto.
Qed.

Lemma key_loop_trace env choices fuel :
  forall s w r w',
    in_range choices s ->
    key_loop env choices fuel s w = (r, w') ->
    exists l, trace w' = trace w ++ l /\ Forall (session_event env) l.
Proof.
  induction fuel as [ | fuel IH ]; intros s w r w' Hs.
  - cbn. intros [= <- <-]. exists []. now rewrite app_nil_r.
  - cbn [key_loop]. unfold bind.
    destruct (iteration_spec env choices s w Hs) as (r1 & w1 & E & Hle & Hr).
    pose proof (turn_trace env choices s w r1 w1 Hs E) as (l1 & Ht1 & Hl1).
    rewrite E.
    destruct r1 as [ [ s' | v ] | e | | ]; try contradiction.
    + destruct Hr as (_ & Hs' & _). intros E2.
      destruct (IH s' w1 r w' Hs' E2) as (l2 & Ht2 & Hl2).
      exists (l1 ++ l2). rewrite Ht2, Ht1, app_assoc.
      split; [ reflexivity | now apply Forall_app ].
    + intros [= <- <-]. now exists l1.
    + intros [= <- <-]. now exists l1.
    + intros [= <- <-]. now exists l1.
Qed.

Lemma display_header_writes message :
  writes (display_header message) tt (map Write (header_lines message)).
Proof.
  unfold display_header, header_lines. cbn [map].
  apply (writes_bind _ _ tt _ [_] [_; _]); [ apply writes_emit | ].
  apply (writes_bind _ _ tt _ [_] [_]); apply writes_emit.
Qed.

(** The [try] block with a list that is not empty, where [msvcrt]
    imports: the header, the first menu, then the loop. *)
Lemma body_unfolded env message choices w :
  msvcrt_available env = true ->
  choices <> [] ->
  let w0 := emitted (map Write (header_lines message ++ menu_lines choices 0)) w in
  let s0 := {| current_pos := 0;
               menu_lines_printed :=
                 Z.of_nat (List.length (menu_lines choices 0)) |} in
  in_range choices s0 /\
  select_undo_point_body env message choices w
  = key_loop env choices (S (List.length (stdin w))) s0 w0.
Proof.
  intros Hm Hne w0 s0.
  assert (in_range choices initial_session) as H0.
  { unfold in_range, Py.len. destruct choices; [ contradiction | cbn; lia ]. }
  split; [ exact H0 | ].
  unfold select_undo_point_body, import_msvcrt. rewrite Hm.
  destruct choices as [ | c cs ]; [ contradiction | ].
  unfold bind at 1. cbn [ret]. unfold bind at 1.
  rewrite display_header_writes. unfold bind at 1.
  rewrite (display_menu_writes _ _ _ H0).
  cbn [initial_session current_pos menu_lines_printed Z.to_nat repeat app].
  rewrite emitted_app, <- map_app. reflexivity.
Qed.

Lemma iteration_read_fails env choices s w e rest :
  stdin_isatty env = true ->
  stdin w = RFail e :: rest ->
  exists w',
    iteration env choices s w = (Raise e, w') /\
    stdin w' = rest /\ term w' = term w.
Proof.
  intros Htty Hw. destruct w as [t pending tr]. cbn in Hw. subst pending.
  unfold iteration. destruct (String.eqb (os_name env) "nt").
  - eexists. split; [ reflexivity | now split ].
  - unfold unix_iteration, termios_tcgetattr, bind at 1. rewrite Htty.
    eexists. split; [ reflexivity | now split ].
Qed.

Lemma body_after_moves env message choices moves rest w :
  msvcrt_available env = true ->
  stdin_isatty env = true ->
  choices <> [] ->
  Forall is_move moves ->
  stdin w = flat_map (encode env) moves ++ rest ->
  exists fuel s' w',
    select_undo_point_body env message choices w
    = key_loop env choices fuel s' w' /\
    current_pos s' = cursor_after (Py.len choices) moves 0 /\
    in_range choices s' /\
    stdin w' = rest /\ term w' = term w /\
    (List.length rest < fuel)%nat.
Proof.
  intros Hm Htty Hne Hmoves Hw.
  destruct (body_unfolded env message choices w Hm Hne) as (Hs0 & ->).
  match goal with
  | |- context [key_loop env choices ?f ?s0 ?w0] =>
      destruct (key_loop_moves env choices Htty moves f s0 w0 rest Hmoves Hs0 Hw)
        as (fuel' & s' & w' & E & Hpos & Hs' & Hin & Ht & Hfuel);
      [ cbn; lia | ]
  end.
  exists fuel', s', w'. repeat split; try assumption; apply Hs'.
Qed.

(** X1: the window is the ten items starting five above the cursor,
    clamped to the list: [start] is [c - 5] kept between [0] and
    [n - 10], and [end] is [start + min(10, n)], so the menu always shows
    exactly [min(10, n)] items. *)
Theorem visible_window_clamped (n c : Z) :
  1 <= n -> 0 <= c < n ->
  visible_window n c
  = (Z.max 0 (Z.min (c - 5) (n - 10)),
     Z.max 0 (Z.min (c - 5) (n - 10)) + Z.min 10 n) /\
  snd (visible_window n c) - fst (visible_window n c) = Z.min 10 n.
Proof.
  intros Hn Hc. rewrite (visible_window_closed_form n c Hn Hc).
  split; [ reflexivity | cbn; lia ].
Qed.

Lemma visible_window_clamped_witness :
  1 <= 25 /\ 0 <= 20 < 25 /\
  visible_window 25 20
  = (Z.max 0 (Z.min (20 - 5) (25 - 10)),
     Z.max 0 (Z.min (20 - 5) (25 - 10)) + Z.min 10 25) /\
  snd (visible_window 25 20) - fst (visible_window 25 20) = Z.min 10 25.
Proof.
  split; [ lia | ]. split; [ lia | ].
  apply (visible_window_clamped 25 20); lia.
Defined.

(** X2: a redraw with the cursor inside the list writes, in this order,
    one erase sequence for every line the session recorded for the
    previous menu and then the lines of the new menu, and it records the
    number of lines it has just written; the cursor is unchanged. *)
Theorem redraw_accounting choices s w :
  in_range choices s ->
  display_menu choices s w
  = (Ok {| current_pos := current_pos s;
           menu_lines_printed :=
             Z.of_nat (List.length (menu_lines choices (current_pos s))) |},
     emitted (repeat (Write erase_line) (Z.to_nat (menu_lines_printed s)) ++
              map Write (menu_lines choices (current_pos s))) w).
Proof. apply display_menu_writes. Qed.

Lemma redraw_accounting_witness :
  let choices := ["a"; "b"; "c"] in
  let s := {| current_pos := 1; menu_lines_printed := 3 |} in
  in_range choices s /\
  display_menu choices s (start [])
  = (Ok {| current_pos := 1; menu_lines_printed := 3 |},
     emitted (repeat (Write erase_line) 3 ++
              map Write (menu_lines choices 1)) (start [])).
Proof.
  intros choices s.
  assert (in_range choices s) as Hs by (unfold in_range, Py.len; cbn; lia).
  split; [ exact Hs | ].
  exact (redraw_accounting choices s (start []) Hs).
Defined.

(** X3: a menu has [min(10, N)] item lines, one more line when items are
    hidden above (the cursor is past index 5 of a list longer than ten)
    and one more when items are hidden below (the cursor is more than
    five from the end of such a list): between 1 and 12 lines. *)
Theorem menu_height choices (c : Z) :
  0 <= c < Py.len choices ->
  let n := Py.len choices in
  Z.of_nat (List.length (menu_lines choices c))
  = Z.min 10 n
    + (if (c >? 5) && (n >? 10) then 1 else 0)
    + (if (c + 5 <? n) && (n >? 10) then 1 else 0) /\
  1 <= Z.of_nat (List.length (menu_lines choices c)) <= 12.
Proof.
  intros Hc n.
  assert (1 <= Py.len choices) as Hn by lia.
  pose proof (menu_lines_length choices c Hn Hc) as H. cbv zeta in H.
  fold n in H. split; [ exact H | ].
  rewrite H.
  destruct ((c >? 5) && (n >? 10)), ((c + 5 <? n) && (n >? 10)); lia.
Qed.

Lemma menu_height_witness :
  let choices := map (fun _ => "x") (seq 0 25) in
  0 <= 20 < Py.len choices /\
  Z.of_nat (List.length (menu_lines choices 20)) = 11.
Proof.
  intros choices.
  assert (0 <= 20 < Py.len choices) as Hc by (unfold Py.len; cbn; lia).
  split; [ exact Hc | ].
  destruct (menu_height choices 20 Hc) as (H & _). exact H.
Defined.

(** X4: when no option contains a line feed, every text of a menu holds
    exactly one line feed, so the number of terminal lines a redraw
    writes is the number it records (and the next redraw erases). *)
Theorem menu_lines_single choices (c : Z) :
  Forall (fun choice => count_LF choice = 0%nat) choices ->
  Forall (fun text => count_LF text = 1%nat) (menu_lines choices c) /\
  list_sum (map count_LF (menu_lines choices c))
  = List.length (menu_lines choices c).
Proof.
  intros Hc.
  assert (Forall (fun text => count_LF text = 1%nat) (menu_lines choices c))
    as H.
  { unfold menu_lines.
    destruct (visible_window (Py.len choices) c) as [start_idx end_idx].
    apply Forall_app. split.
    { destruct (start_idx >? 0); repeat constructor. }
    apply Forall_app. split.
    { rewrite Forall_map. rewrite Forall_forall. intros i _.
      now apply menu_line_one_LF. }
    destruct (end_idx <? Py.len choices); repeat constructor. }
  split; [ exact H | ].
  induction H as [ | text l Ht _ IH ]; [ reflexivity | ].
  change (list_sum (map count_LF (text :: l)))
    with (count_LF text + list_sum (map count_LF l))%nat.
  rewrite Ht, IH. reflexivity.
Qed.

Lemma menu_lines_single_witness :
  let choices := ["a"; "b"; "c"] in
  Forall (fun choice => count_LF choice = 0%nat) choices /\
  list_sum (map count_LF (menu_lines choices 1)) = 3%nat.
Proof.
  intros choices.
  assert (Forall (fun choice => count_LF choice = 0%nat) choices) as Hc
    by (repeat constructor).
  split; [ exact Hc | ].
  destruct (menu_lines_single choices 1 Hc) as (_ & H). exact H.
Defined.

(** X5: keys the loop does not know are dropped and change nothing.  On
    the ['nt'] branch a first byte other than 0xE0, carriage return,
    [ESC] and 0x03, and a byte other than ['H'] and ['P'] after the
    prefix 0xE0, end the turn with the same session and nothing written.
    The decoder of the other branch gives [Ignore] for a first byte other
    than [ESC], carriage return, line feed and 0x03, for [ESC '['] and a
    third byte other than ['A'] and ['B'], and for [ESC] and a second
    byte other than ['[']; it takes one, three and two bytes. *)
Theorem unrecognised_keys_ignored choices s t rest tr (b : ascii) :
  let w l := {| term := t; stdin := l; trace := tr |} in
  (b <> "224"%char -> b <> "013"%char -> b <> "027"%char -> b <> "003"%char ->
   nt_iteration choices s (w (RByte b :: rest)) = (Ok (Continue s), w rest)) /\
  (b <> "H"%char -> b <> "P"%char ->
   nt_iteration choices s (w (RByte "224" :: RByte b :: rest))
   = (Ok (Continue s), w rest)) /\
  (b <> "027"%char -> b <> "013"%char -> b <> "010"%char -> b <> "003"%char ->
   read_key_unix (w (RByte b :: rest)) = (Ok Ignore, w rest)) /\
  (b <> "A"%char -> b <> "B"%char ->
   read_key_unix (w (RByte "027" :: RByte "[" :: RByte b :: rest))
   = (Ok Ignore, w rest)) /\
  (b <> "["%char ->
   read_key_unix (w (RByte "027" :: RByte b :: rest)) = (Ok Ignore, w rest)).
Proof.
  intros w. repeat split; intros;
    repeat match goal with
      | H : _ <> _ |- _ => apply Ascii.eqb_neq in H
      end.
  - unfold nt_iteration, bind, msvcrt_getch. cbn.
    now repeat match goal with H : Ascii.eqb _ _ = false |- _ => rewrite H; clear H end.
  - unfold nt_iteration, bind, msvcrt_getch. cbn.
    now repeat match goal with H : Ascii.eqb _ _ = false |- _ => rewrite H; clear H end.
  - unfold read_key_unix, bind, sys_stdin_read1. cbn.
    now repeat match goal with H : Ascii.eqb _ _ = false |- _ => rewrite H; clear H end.
  - unfold read_key_unix, bind, sys_stdin_read1. cbn.
    now repeat match goal with H : Ascii.eqb _ _ = false |- _ => rewrite H; clear H end.
  - unfold read_key_unix, bind, sys_stdin_read1. cbn.
    now repeat match goal with H : Ascii.eqb _ _ = false |- _ => rewrite H; clear H end.
Qed.

Lemma unrecognised_keys_ignored_witness :
  let s := {| current_pos := 1; menu_lines_printed := 3 |} in
  nt_iteration ["a"; "b"; "c"] s (start (keys "q" ++ keys CR))
  = (Ok (Continue s), start (keys CR)) /\
  nt_iteration ["a"; "b"; "c"] s (start (keys (xE0 ++ "q") ++ keys CR))
  = (Ok (Continue s), start (keys CR)) /\
  read_key_unix (start (keys "q" ++ keys CR)) = (Ok Ignore, start (keys CR)) /\
  read_key_unix (start (keys (ESC ++ "[q") ++ keys CR))
  = (Ok Ignore, start (keys CR)) /\
  read_key_unix (start (keys (ESC ++ "q") ++ keys CR))
  = (Ok Ignore, start (keys CR)).
Proof.
  intros s.
  destruct (unrecognised_keys_ignored ["a"; "b"; "c"] s cooked (keys CR) []
              "q"%char) as (H1 & H2 & H3 & H4 & H5).
  split; [ apply H1; discriminate | ].
  split; [ apply H2; discriminate | ].
  split; [ apply H3; discriminate | ].
  split; [ apply H4; discriminate | apply H5; discriminate ].
Defined.

Lemma body_trace env message choices w :
  msvcrt_available env = true ->
  choices <> [] ->
  exists l,
    trace (snd (select_undo_point_body env message choices w))
    = trace w ++ map Write (header_lines message ++ menu_lines choices 0) ++ l /\
    Forall (session_event env) l.
Proof.
  intros Hm Hne.
  destruct (body_unfolded env message choices w Hm Hne) as (Hs0 & ->).
  match goal with
  | |- context [key_loop env choices ?f ?s0 ?w0] =>
      destruct (key_loop env choices f s0 w0) as [r w'] eqn:E;
      destruct (key_loop_trace env choices f s0 w0 r w' Hs0 E) as (l & Ht & Hl)
  end.
  exists l. cbn [snd]. rewrite Ht. cbn. rewrite <- app_assoc.
  split; [ reflexivity | exact Hl ].
Qed.

(** X6: with a list that is not empty and [msvcrt] imported, the [try]
    block writes the header and the first menu and after that only
    writes to standard output and, off ['nt'], calls [termios] and
    [tty]: it never warns, logs or prompts, and on ['nt'] it never
    touches the terminal attributes. *)
Theorem try_block_events env message choices w :
  msvcrt_available env = true ->
  choices <> [] ->
  exists l,
    trace (snd (select_undo_point_body env message choices w))
    = trace w ++ map Write (header_lines message ++ menu_lines choices 0) ++ l /\
    Forall (session_event env) l.
Proof. exact (body_trace env message choices w). Qed.

Lemma try_block_events_witness :
  let env := windows PNone in
  msvcrt_available env = true /\
  ["a"; "b"] <> [] /\
  exists l,
    trace (snd (select_undo_point_body env "Pick one" ["a"; "b"]
                  (start (keys (xE0 ++ "P" ++ CR)))))
    = [] ++ map Write (header_lines "Pick one" ++ menu_lines ["a"; "b"] 0) ++ l /\
    Forall (session_event env) l.
Proof.
  intros env.
  assert (["a"; "b"] <> @nil string) as Hne by discriminate.
  split; [ reflexivity | ]. split; [ exact Hne | ].
  exact (try_block_events env "Pick one" ["a"; "b"]
           (start (keys (xE0 ++ "P" ++ CR))) eq_refl Hne).
Defined.

(** X7: a [KeyboardInterrupt] raised by a read of a key, after any number
    of arrow keys, cancels: the call returns [None] in the world the
    [try] block left, with the terminal as before, the keys up to the
    failing read taken, and nothing logged and no fallback prompt. *)
Theorem interrupt_cancels env message choices moves rest w :
  msvcrt_available env = true ->
  stdin_isatty env = true ->
  choices <> [] ->
  Forall is_move moves ->
  stdin w = flat_map (encode env) moves ++ RFail Py.KeyboardInterrupt :: rest ->
  exists w' l,
    select_undo_point env message choices w = (Ok None, w') /\
    term w' = term w /\ stdin w' = rest /\
    trace w' = trace w ++ l /\
    Forall (fun ev => match ev with
                      | LogError _ _ | Prompt _ _ | Warning _ => False
                      | _ => True
                      end) l.
Proof.
  intros Hm Htty Hne Hmoves Hw.
  destruct (body_trace env message choices w Hm Hne) as (l & Ht & Hl).
  destruct (body_after_moves env message choices moves _ w Hm Htty Hne Hmoves Hw)
    as (fuel & s' & w1 & E & _ & Hs' & Hin & Hterm & Hfuel).
  destruct fuel as [ | fuel ]; [ lia | ].
  destruct (iteration_read_fails env choices s' w1 _ rest Htty Hin)
    as (w' & Ei & Hin' & Hterm').
  assert (select_undo_point_body env message choices w
          = (Raise Py.KeyboardInterrupt, w')) as Eb.
  { rewrite E. cbn [key_loop]. unfold bind. now rewrite Ei. }
  rewrite Eb in Ht. cbn [snd] in Ht.
  exists w', (map Write (header_lines message ++ menu_lines choices 0) ++ l).
  split; [ unfold select_undo_point, try_except; now rewrite Eb | ].
  split; [ congruence | ]. split; [ exact Hin' | ]. split; [ exact Ht | ].
  apply Forall_app. split.
  - rewrite Forall_map. rewrite Forall_forall. intros; exact I.
  - eapply Forall_impl; [ | exact Hl ].
    intros [ ] H; cbn in H; try contradiction; exact I.
Qed.

Lemma interrupt_cancels_witness :
  let env := posix_with_msvcrt (PAnswer "b") in
  let w := start (flat_map (encode env) [MoveDown]
                    ++ RFail Py.KeyboardInterrupt :: keys CR) in
  msvcrt_available env = true /\ stdin_isatty env = true /\
  ["a"; "b"] <> [] /\ Forall is_move [MoveDown] /\
  fst (select_undo_point env "Pick one" ["a"; "b"] w) = Ok None /\
  term (snd (select_undo_point env "Pick one" ["a"; "b"] w)) = cooked /\
  stdin (snd (select_undo_point env "Pick one" ["a"; "b"] w)) = keys CR.
Proof.
  intros env w.
  assert (["a"; "b"] <> @nil string) as Hne by discriminate.
  assert (Forall is_move [MoveDown]) as Hmoves
    by (repeat constructor; now right).
  split; [ reflexivity | ]. split; [ reflexivity | ].
  split; [ exact Hne | ]. split; [ exact Hmoves | ].
  destruct (interrupt_cancels env "Pick one" ["a"; "b"] [MoveDown] (keys CR) w
              eq_refl eq_refl Hne Hmoves eq_refl)
    as (w' & l & -> & Ht & Hin & _).
  cbn [fst snd]. split; [ reflexivity | ]. split; [ exact Ht | exact Hin ].
Defined.

(** X8: an exception other than [KeyboardInterrupt] raised by a read of a
    key, after any number of arrow keys, hands over to the fallback in
    the world the [try] block left (terminal as before, keys up to the
    failing read taken).  The cursor the arrow keys had reached is not
    used: a non-empty answer of the fallback prompt that is in the list
    is returned as its first index. *)
Theorem read_error_falls_back env message choices moves e rest w :
  msvcrt_available env = true ->
  stdin_isatty env = true ->
  choices <> [] ->
  Forall is_move moves ->
  e <> Py.KeyboardInterrupt ->
  stdin w = flat_map (encode env) moves ++ RFail e :: rest ->
  exists w1,
    select_undo_point_body env message choices w = (Raise e, w1) /\
    term w1 = term w /\ stdin w1 = rest /\
    select_undo_point env message choices w
    = select_undo_point_fallback env message choices e w1 /\
    forall s, inquirer_prompt env = PAnswer s -> In s choices ->
              s <> EmptyString ->
              exists i, fst (select_undo_point env message choices w)
                        = Ok (Some i) /\
                        Py.index choices s = inl i.
Proof.
  intros Hm Htty Hne Hmoves He Hw.
  destruct (body_after_moves env message choices moves _ w Hm Htty Hne Hmoves Hw)
    as (fuel & s' & w0 & E & _ & Hs' & Hin & Hterm & Hfuel).
  destruct fuel as [ | fuel ]; [ lia | ].
  destruct (iteration_read_fails env choices s' w0 _ rest Htty Hin)
    as (w1 & Ei & Hin' & Hterm').
  assert (select_undo_point_body env message choices w = (Raise e, w1)) as Eb.
  { rewrite E. cbn [key_loop]. unfold bind. now rewrite Ei. }
  assert (select_undo_point env message choices w
          = select_undo_point_fallback env message choices e w1) as Es.
  { unfold select_undo_point, try_except. rewrite Eb.
    destruct e; try reflexivity. contradiction. }
  exists w1. split; [ exact Eb | ]. split; [ congruence | ].
  split; [ exact Hin' | ]. split; [ exact Es | ].
  intros s Ha Hs Hnes. rewrite Es.
  destruct (fallback_first_match env message choices e w1 s Ha Hs Hnes)
    as (i & Hi & _ & Hnth & Hfirst).
  exists i. split; [ exact Hi | ].
  destruct (index_first choices s Hs) as (j & Hj & _ & Hnthj & Hfirstj).
  rewrite Hj. f_equal.
  unfold select_undo_point_fallback, bind, logger_error, emit in Hi.
  destruct choices as [ | c cs ]; [ contradiction | ].
  rewrite select_from_list_cons, Ha in Hi. cbv zeta in Hi.
  unfold Py.truthy in Hi. apply String.eqb_neq in Hnes. rewrite Hnes in Hi.
  cbn [negb] in Hi. rewrite Hj in Hi. cbn in Hi. congruence.
Qed.

Lemma read_error_falls_back_witness :
  let env := windows (PAnswer "a") in
  let w := start (flat_map (encode env) [MoveDown; MoveDown]
                    ++ RFail Py.OSError :: []) in
  msvcrt_available env = true /\ stdin_isatty env = true /\
  ["a"; "b"; "c"] <> [] /\ Forall is_move [MoveDown; MoveDown] /\
  Py.OSError <> Py.KeyboardInterrupt /\
  fst (select_undo_point_body env "Pick one" ["a"; "b"; "c"] w)
  = Raise Py.OSError /\
  fst (select_undo_point env "Pick one" ["a"; "b"; "c"] w) = Ok (Some 0).
Proof.
  intros env w.
  assert (["a"; "b"; "c"] <> @nil string) as Hne by discriminate.
  assert (Forall is_move [MoveDown; MoveDown]) as Hmoves
    by (repeat constructor; now right).
  assert (Py.OSError <> Py.KeyboardInterrupt) as He by discriminate.
  split; [ reflexivity | ]. split; [ reflexivity | ].
  split; [ exact Hne | ]. split; [ exact Hmoves | ]. split; [ exact He | ].
  destruct (read_error_falls_back env "Pick one" ["a"; "b"; "c"]
              [MoveDown; MoveDown] Py.OSError [] w
              eq_refl eq_refl Hne Hmoves He eq_refl)
    as (w1 & Eb & _ & _ & _ & Hans).
  split; [ now rewrite Eb | ].
  destruct (Hans "a" eq_refl) as (i & Hi & Hidx);
    [ now left | discriminate | ].
  rewrite Hi. cbn in Hidx. congruence.
Defined.

(** X9: off ['nt'], with [msvcrt] imported but standard input not a
    terminal, the header and the first menu are written, the first
    [termios.tcgetattr] raises, and the call is the fallback from there:
    no key has been read, the terminal attributes are as before and
    [tty.setraw] was never called. *)
Theorem no_terminal_falls_back env message choices w :
  msvcrt_available env = true ->
  String.eqb (os_name env) "nt" = false ->
  stdin_isatty env = false ->
  choices <> [] ->
  let w1 :=
    emitted (map Write (header_lines message ++ menu_lines choices 0)
               ++ [Tcgetattr]) w in
  select_undo_point_body env message choices w = (Raise Py.TermiosError, w1) /\
  select_undo_point env message choices w
  = select_undo_point_fallback env message choices Py.TermiosError w1.
Proof.
  intros Hm Hos Htty Hne w1.
  assert (select_undo_point_body env message choices w
          = (Raise Py.TermiosError, w1)) as Eb.
  { destruct (body_unfolded env message choices w Hm Hne) as (_ & ->).
    cbn [key_loop]. unfold bind, iteration. rewrite Hos.
    unfold unix_iteration, termios_tcgetattr, bind. rewrite Htty.
    unfold w1, log, emitted. cbn. now rewrite <- app_assoc. }
  split; [ exact Eb | ].
  unfold select_undo_point, try_except. now rewrite Eb.
Qed.

Lemma no_terminal_falls_back_witness :
  let env := {| msvcrt_available := true; os_name := "posix";
                stdin_isatty := false; setraw_attrs := clear_flags;
                inquirer_prompt := PAnswer "b" |} in
  let w := start (keys CR) in
  msvcrt_available env = true /\
  String.eqb (os_name env) "nt" = false /\
  stdin_isatty env = false /\
  ["a"; "b"] <> [] /\
  fst (select_undo_point_body env "Pick one" ["a"; "b"] w)
  = Raise Py.TermiosError /\
  fst (select_undo_point env "Pick one" ["a"; "b"] w) = Ok (Some 1) /\
  stdin (snd (select_undo_point env "Pick one" ["a"; "b"] w)) = keys CR.
Proof.
  intros env w.
  assert (["a"; "b"] <> @nil string) as Hne by discriminate.
  split; [ reflexivity | ]. split; [ reflexivity | ].
  split; [ reflexivity | ]. split; [ exact Hne | ].
  destruct (no_terminal_falls_back env "Pick one" ["a"; "b"] w
              eq_refl eq_refl eq_refl Hne) as (Eb & Es).
  split; [ now rewrite Eb | ].
  rewrite Es. split; reflexivity.
Defined.

(** X10: [select_from_list] never raises and reads no key.  With an
    empty list it warns and returns [None] without prompting; otherwise
    it prompts once and returns the answer, or [None] when the prompt
    gives no answers, is interrupted, or raises (the exception is then
    logged). *)
Theorem select_from_list_total env message choices w :
  exists v l,
    select_from_list env message choices w = (Ok v, emitted l w) /\
    match choices with
    | [] => v = None /\ l = [Warning no_options]
    | _ :: _ =>
        match inquirer_prompt env with
        | PAnswer s => v = Some s /\ l = [Prompt message choices]
        | PNone | PRaise Py.KeyboardInterrupt =>
            v = None /\ l = [Prompt message choices]
        | PRaise e =>
            v = None /\
            l = [Prompt message choices; LogError "List selection failed" e]
        end
    end.
Proof.
  destruct choices as [ | c cs ].
  - rewrite select_from_list_nil. now exists None, [Warning no_options].
  - rewrite select_from_list_cons. cbv zeta.
    destruct (inquirer_prompt env) as [ s | | [ ] ];
      eexists; eexists;
      (split; [ unfold emitted, log; cbn; rewrite <- ?app_assoc; reflexivity | ]);
      now split.
Qed.

(** * Properties of the prompts and displays *)

Lemma getitem_known o key :
  In key (map fst Console.SYMBOLS_ascii) ->
  Console.getitem (Console.SYMBOLS o) key = (inl (symbol o key), []).
Proof.
  intros Hk. unfold Console.getitem, symbol, Console.SYMBOLS.
  cbn in Hk.
  destruct (Console.can_use_emoji o);
    repeat (destruct Hk as [ <- | Hk ]; [ reflexivity | ]); contradiction.
Qed.

Lemma shown_app l1 l2 : shown (l1 ++ l2) = shown l1 ++ shown l2.
Proof. unfold shown. apply flat_map_app. Qed.

Lemma asked_app l1 l2 : asked (l1 ++ l2) = asked l1 ++ asked l2.
Proof. unfold asked. apply flat_map_app. Qed.

(** [_safe_print] on a console that is not interrupted returns and shows
    the content once, without asking anything. *)
Lemma safe_print_shows o c style :
  uninterrupted o ->
  exists l, Console._safe_print o c style = (inl tt, l) /\
            shown l = [c] /\ asked l = [].
Proof.
  intros Hu. unfold Console._safe_print, Console.except_Exception,
    Console.try_except, Console.console_print.
  specialize (Hu c).
  destruct (Console.console_print_raises o c) as [ [ | key | text ] | ];
    try congruence; cbn; eexists; repeat split.
Qed.

(** X11: the two symbol tables have the same seventeen keys, none
    twice, so every subscript that works with emoji works with the
    ASCII fallback; the keys the module itself looks up are among them;
    and every ASCII symbol is one 7-bit character. *)
Theorem symbol_tables_agree :
  map fst Console.SYMBOLS_emoji = map fst Console.SYMBOLS_ascii /\
  NoDup (map fst Console.SYMBOLS_ascii) /\
  List.length Console.SYMBOLS_ascii = 17%nat /\
  (forall o,
     Forall (fun key =>
               exists v, Console.getitem (Console.SYMBOLS o) key = (inl v, []))
       (map fst Console.SYMBOLS_ascii)) /\
  incl ["success"; "error"; "warning"; "info"; "branch"; "file"; "clipboard";
        "stash"] (map fst Console.SYMBOLS_ascii) /\
  Forall (fun entry =>
            exists c, snd entry = String c EmptyString /\
                      (nat_of_ascii c < 128)%nat)
    Console.SYMBOLS_ascii.
Proof.
  split; [ reflexivity | ].
  split.
  { cbn. repeat (constructor; [ cbn; intuition discriminate | ]). constructor. }
  split; [ reflexivity | ].
  split.
  { intros o. rewrite Forall_forall. intros key Hk.
    exists (symbol o key). now apply getitem_known. }
  split.
  { intros key Hk. cbn in Hk |- *. intuition auto. }
  repeat constructor; cbn; eexists; (split; [ reflexivity | cbn; lia ]).
Qed.

Lemma safe_print_cases o content style :
  Console._safe_print o content style
  = match Console.console_print_raises o content with
    | None => (inl tt, [Console.ConsolePrint content style])
    | Some Console.KeyboardInterrupt => (inr Console.KeyboardInterrupt, [])
    | Some e =>
        (inl tt,
         [Console.Logged ("Console print failed: " ++ Console.exc_text e);
          Console.StdoutPrint content])
    end.
Proof.
  unfold Console._safe_print, Console.except_Exception, Console.try_except,
    Console.console_print.
  destruct (Console.console_print_raises o content) as [ [ | key | text ] | ];
    reflexivity.
Qed.

(** X12: [print_success], [print_error], [print_warning] and
    [print_info] never fail on the symbol table and never let an
    exception of the console out, except an interruption: the message,
    after its symbol, is shown exactly once, by the console or, when the
    console raises, by plain [print] after the failure is logged. *)
Theorem print_helpers_show_once o message :
  let run (c : Console.C unit) (content : Console.renderable)
          (style : string) : Prop :=
    match Console.console_print_raises o content with
    | None => c = (inl tt, [Console.ConsolePrint content (Some style)])
    | Some Console.KeyboardInterrupt => c = (inr Console.KeyboardInterrupt, [])
    | Some e =>
        c = (inl tt,
             [Console.Logged ("Console print failed: " ++ Console.exc_text e);
              Console.StdoutPrint content])
    end in
  run (Console.print_success o message)
    (Console.Str (symbol o "success" ++ " " ++ message)) "bold green" /\
  run (Console.print_error o message)
    (Console.Str (symbol o "error" ++ " " ++ message)) "bold red" /\
  run (Console.print_warning o message)
    (Console.Str (symbol o "warning" ++ " " ++ message)) "bold yellow" /\
  run (Console.print_info o message)
    (Console.Str (symbol o "info" ++ "  " ++ message)) "bold blue".
Proof.
  intros run. unfold run.
  unfold Console.print_success, Console.print_error, Console.print_warning,
    Console.print_info.
  rewrite !getitem_known by (cbn; intuition auto).
  unfold Console.bind, Console._safe_print, Console.except_Exception,
    Console.try_except, Console.console_print.
  repeat split;
    match goal with
    | |- context [Console.console_print_raises o ?c] =>
        destruct (Console.console_print_raises o c) as [ [ | key | text ] | ]
    end; reflexivity.
Qed.

(** X13: the four prompt wrappers never raise and ask exactly one
    question (none, for [select_multiple] on an empty list).  An answer
    is returned as it is; with no answers, and after an exception of the
    prompt, which is logged, the result is the default ([default], the
    empty string for a password, the empty list for a multiple
    selection); after a [KeyboardInterrupt] it is the same, except that
    [confirm] then returns [False] whatever its default. *)
Theorem prompt_wrappers o message (default_b : bool) (default_s : string)
    (choices : list string) :
  (exists l,
     Console.confirm o message default_b
     = (inl match Console.confirm_answer o with
            | Console.Answers a => a
            | Console.NoAnswers => default_b
            | Console.PromptRaises Console.KeyboardInterrupt => false
            | Console.PromptRaises _ => default_b
            end, l) /\
     asked l = [Console.Confirm message default_b]) /\
  (exists l,
     Console.prompt_text o message default_s
     = (inl match Console.text_answer o with
            | Console.Answers a => a
            | _ => default_s
            end, l) /\
     asked l = [Console.Text message default_s]) /\
  (exists l,
     Console.prompt_password o message
     = (inl match Console.password_answer o with
            | Console.Answers a => a
            | _ => EmptyString
            end, l) /\
     asked l = [Console.Password message]) /\
  (exists l,
     Console.select_multiple o message choices
     = (inl match choices, Console.checkbox_answer o with
            | _ :: _, Console.Answers a => a
            | _, _ => []
            end, l) /\
     asked l = match choices with
               | [] => []
               | _ :: _ => [Console.Checkbox message choices]
               end).
Proof.
  repeat split.
  - unfold Console.confirm, Console.try_except, Console.inquirer_prompt.
    destruct (Console.confirm_answer o) as [ a | | [ | key | text ] ];
      cbn; eexists; split; reflexivity.
  - unfold Console.prompt_text, Console.try_except, Console.inquirer_prompt.
    destruct (Console.text_answer o) as [ a | | [ | key | text ] ];
      cbn; eexists; split; reflexivity.
  - unfold Console.prompt_password, Console.try_except,
      Console.inquirer_prompt.
    destruct (Console.password_answer o) as [ a | | [ | key | text ] ];
      cbn; eexists; split; reflexivity.
  - destruct choices as [ | c cs ].
    + unfold Console.select_multiple, Console.try_except, Console.bind,
        Console.print_warning.
      rewrite getitem_known by (cbn; intuition auto).
      unfold Console.bind. rewrite safe_print_cases.
      destruct (Console.console_print_raises o _) as [ [ | key | text ] | ];
        cbn; eexists; split; reflexivity.
    + unfold Console.select_multiple, Console.try_except,
        Console.inquirer_prompt.
      destruct (Console.checkbox_answer o) as [ a | | [ | key | text ] ];
        cbn; eexists; split; reflexivity.
Qed.

Lemma confirm_cases o message default :
  exists l,
    Console.confirm o message default
    = (inl match Console.confirm_answer o with
           | Console.Answers a => a
           | Console.NoAnswers => default
           | Console.PromptRaises Console.KeyboardInterrupt => false
           | Console.PromptRaises _ => default
           end, l) /\
    asked l = [Console.Confirm message default].
Proof.
  unfold Console.confirm, Console.try_except, Console.inquirer_prompt.
  destruct (Console.confirm_answer o) as [ a | | [ | key | text ] ];
    cbn; eexists; split; reflexivity.
Qed.

Lemma prompt_text_cases o message default :
  exists l,
    Console.prompt_text o message default
    = (inl match Console.text_answer o with
           | Console.Answers a => a
           | _ => default
           end, l) /\
    asked l = [Console.Text message default].
Proof.
  unfold Console.prompt_text, Console.try_except, Console.inquirer_prompt.
  destruct (Console.text_answer o) as [ a | | [ | key | text ] ];
    cbn; eexists; split; reflexivity.
Qed.

(** X14: for a danger level other than "extreme", "high" and "medium"
    (so for "low", and for any misspelt level) [require_confirmation]
    returns [True] without asking, showing or logging anything. *)
Theorem require_confirmation_other_level o action target danger_level :
  danger_level <> "extreme" -> danger_level <> "high" ->
  danger_level <> "medium" ->
  Console.require_confirmation o action target danger_level = (inl true, []).
Proof.
  intros H1 H2 H3. apply String.eqb_neq in H1, H2, H3.
  unfold Console.require_confirmation. now rewrite H1, H2, H3.
Qed.

Lemma require_confirmation_other_level_witness :
  "Medium" <> "extreme" /\ "Medium" <> "high" /\ "Medium" <> "medium" /\
  Console.require_confirmation (quiet false) "force push" "main" "Medium"
  = (inl true, []).
Proof.
  assert ("Medium" <> "extreme") as H1 by discriminate.
  assert ("Medium" <> "high") as H2 by discriminate.
  assert ("Medium" <> "medium") as H3 by discriminate.
  split; [ exact H1 | ]. split; [ exact H2 | ]. split; [ exact H3 | ].
  exact (require_confirmation_other_level (quiet false) "force push" "main"
           "Medium" H1 H2 H3).
Defined.

(** X15: at level "extreme" with a target that is not empty, exactly one
    text question is asked and the result is [True] if and only if the
    text prompt answered with exactly the target; no answers, an
    interruption and a failing prompt all give [False]. *)
Theorem require_confirmation_extreme o action target :
  target <> EmptyString ->
  exists l,
    Console.require_confirmation o action target "extreme"
    = (inl match Console.text_answer o with
           | Console.Answers typed => String.eqb typed target
           | _ => false
           end, l) /\
    asked l
    = [Console.Text ("This is a dangerous operation. Type '" ++ target
                       ++ "' to confirm:") EmptyString] /\
    (fst (Console.require_confirmation o action target "extreme") = inl true
     <-> Console.text_answer o = Console.Answers target).
Proof.
  intros Ht. pose proof Ht as Hne. apply String.eqb_neq in Hne.
  unfold Console.require_confirmation, Console.except_Exception,
    Console.try_except.
  cbn [String.eqb Ascii.eqb Bool.eqb]. rewrite Hne. cbn [negb].
  destruct (prompt_text_cases o
              ("This is a dangerous operation. Type '" ++ target
                 ++ "' to confirm:") EmptyString) as (l & E & Ha).
  unfold Console.bind. rewrite E. cbn. rewrite app_nil_r.
  assert (String.eqb EmptyString target = false) as He.
  { apply String.eqb_neq. congruence. }
  exists l.
  destruct (Console.text_answer o) as [ typed | | e ]; rewrite ?He;
    (split; [ reflexivity | ]); (split; [ exact Ha | ]); cbn.
  - split.
    + intros [= H]. apply String.eqb_eq in H. now subst.
    + intros [= ->]. now rewrite String.eqb_refl.
  - split; [ discriminate | discriminate ].
  - split; [ discriminate | discriminate ].
Qed.

Lemma require_confirmation_extreme_witness :
  let o := {| Console.can_use_emoji := false;
              Console.console_print_raises := fun _ => None;
              Console.confirm_answer := Console.Answers true;
              Console.text_answer := Console.Answers "mian";
              Console.password_answer := Console.NoAnswers;
              Console.checkbox_answer := Console.NoAnswers;
              Console.upstream_check_raises := None |} in
  "main" <> EmptyString /\
  fst (Console.require_confirmation o "force push" "main" "extreme")
  = inl false.
Proof.
  intros o.
  assert ("main" <> EmptyString) as Ht by discriminate.
  split; [ exact Ht | ].
  destruct (require_confirmation_extreme o "force push" "main" Ht)
    as (l & -> & _).
  reflexivity.
Defined.

(** X16: where [require_confirmation] asks a yes/no question it asks it
    once and never raises.  At level "high", and at "extreme" without a
    target, the default is [False]: the result is [True] only on an
    answer [True].  At level "medium" the default is [True]: the result
    is [True] also when the prompt gives no answers or raises an
    exception, and [False] only on an answer [False] or a
    [KeyboardInterrupt]. *)
Theorem require_confirmation_defaults o action :
  (exists l,
     Console.require_confirmation o action EmptyString "extreme"
     = (inl match Console.confirm_answer o with
            | Console.Answers a => a
            | _ => false
            end, l) /\
     asked l
     = [Console.Confirm "This is a dangerous operation. Are you sure?" false])
  /\
  (forall target, exists l,
     Console.require_confirmation o action target "high"
     = (inl match Console.confirm_answer o with
            | Console.Answers a => a
            | _ => false
            end, l) /\
     asked l
     = [Console.Confirm ("Are you sure you want to " ++ action
                           ++ "? This cannot be easily undone.") false])
  /\
  (forall target, exists l,
     Console.require_confirmation o action target "medium"
     = (inl match Console.confirm_answer o with
            | Console.Answers a => a
            | Console.PromptRaises Console.KeyboardInterrupt => false
            | _ => true
            end, l) /\
     asked l
     = [Console.Confirm ("Are you sure you want to " ++ action ++ "?") true]).
Proof.
  unfold Console.require_confirmation, Console.except_Exception,
    Console.try_except.
  cbn [String.eqb Ascii.eqb Bool.eqb negb].
  repeat split; intros;
    match goal with
    | |- context [Console.confirm o ?m ?d] =>
        destruct (confirm_cases o m d) as (l & -> & Ha)
    end;
    exists l; (split; [ | exact Ha ]);
    destruct (Console.confirm_answer o) as [ a | | [ | key | text ] ];
    reflexivity.
Qed.

Lemma for_each_safe_print {A} o (f : A -> Console.renderable)
    (body : A -> Console.C unit) (items : list A) :
  uninterrupted o ->
  (forall x, body x = Console._safe_print o (f x) None) ->
  exists l,
    Console.for_each items body = (inl tt, l) /\
    shown l = map f items /\ asked l = [].
Proof.
  intros Hu Hb. induction items as [ | x items (l & IH & Hs & Ha) ].
  - now exists [].
  - destruct (safe_print_shows o (f x) None Hu) as (l1 & E1 & Hs1 & Ha1).
    exists (l1 ++ l). cbn [Console.for_each]. unfold Console.bind.
    rewrite Hb, E1, IH. split; [ reflexivity | ].
    rewrite shown_app, asked_app, Hs1, Ha1, Hs, Ha. now split.
Qed.

Lemma enumerate_nth {A B} (g : Z * A -> B) (items : list A) (d : A) :
  forall start,
    map g (Console.enumerate items start)
    = map (fun k => g (start + Z.of_nat k, nth k items d))
        (seq 0 (List.length items)).
Proof.
  induction items as [ | x items IH ]; intros start; [ reflexivity | ].
  cbn [Console.enumerate List.length map seq].
  rewrite Z.add_0_r. f_equal.
  rewrite <- seq_shift, map_map, IH.
  apply map_ext. intros k. cbn [nth]. do 2 f_equal. lia.
Qed.

Lemma display_list_shown o title items numbered :
  uninterrupted o ->
  exists l,
    Console.display_list o title items numbered = (inl tt, l) /\
    shown l
    = list_title title ::
      (if numbered
       then map (fun k => numbered_line (Z.of_nat k + 1) (nth k items EmptyString))
              (seq 0 (List.length items))
       else map bullet_line items) ++
      [Console.Str EmptyString] /\
    asked l = [].
Proof.
  intros Hu.
  destruct (safe_print_shows o (list_title title) None Hu)
    as (l1 & E1 & Hs1 & Ha1).
  destruct (safe_print_shows o (Console.Str EmptyString) None Hu)
    as (l3 & E3 & Hs3 & Ha3).
  unfold Console.display_list, Console.except_Exception, Console.try_except.
  destruct numbered.
  - destruct (for_each_safe_print o
                (fun p : Z * string => numbered_line (fst p) (snd p))
                (fun '(i, item) =>
                   Console._safe_print o
                     (Console.Str ("  " ++ Console.str_of_int i ++ ". " ++ item))
                     None)
                (Console.enumerate items 1) Hu)
      as (l2 & E2 & Hs2 & Ha2).
    { now intros [i item]. }
    unfold Console.bind. fold (list_title title). rewrite E1, E2, E3.
    exists ((l1 ++ l2) ++ l3). split; [ reflexivity | ].
    rewrite !shown_app, !asked_app, Hs1, Hs2, Hs3, Ha1, Ha2, Ha3.
    split; [ | reflexivity ].
    rewrite (enumerate_nth _ items EmptyString). cbn [app].
    do 2 f_equal. apply map_ext. intros k. cbn [fst snd].
    now replace (1 + Z.of_nat k) with (Z.of_nat k + 1) by lia.
  - destruct (for_each_safe_print o bullet_line
                (fun item =>
                   Console._safe_print o (Console.Str ("  • " ++ item)) None)
                items Hu)
      as (l2 & E2 & Hs2 & Ha2).
    { reflexivity. }
    unfold Console.bind. fold (list_title title). rewrite E1, E2, E3.
    exists ((l1 ++ l2) ++ l3). split; [ reflexivity | ].
    rewrite !shown_app, !asked_app, Hs1, Hs2, Hs3, Ha1, Ha2, Ha3.
    now split.
Qed.

(** X17: on a console that is not interrupted [display_list] returns and
    shows the title, one line for each item in order, and a closing
    empty line; in a numbered list the line of the item at position [k]
    (from 0) carries the number [k + 1].  Every line is shown once even
    when the console fails, through plain [print]. *)
Theorem display_list_lines o title items numbered :
  uninterrupted o ->
  exists l,
    Console.display_list o title items numbered = (inl tt, l) /\
    shown l
    = list_title title ::
      (if numbered
       then map (fun k => numbered_line (Z.of_nat k + 1) (nth k items EmptyString))
              (seq 0 (List.length items))
       else map bullet_line items) ++
      [Console.Str EmptyString] /\
    List.length (shown l) = (List.length items + 2)%nat.
Proof.
  intros Hu.
  destruct (display_list_shown o title items numbered Hu) as (l & E & Hs & _).
  exists l. split; [ exact E | ]. split; [ exact Hs | ].
  rewrite Hs. cbn [List.length]. rewrite length_app.
  destruct numbered; rewrite length_map, ?length_seq; cbn; lia.
Qed.

Lemma display_list_lines_witness :
  let o := {| Console.can_use_emoji := true;
              Console.console_print_raises :=
                fun _ => Some (Console.Failure "encoding");
              Console.confirm_answer := Console.NoAnswers;
              Console.text_answer := Console.NoAnswers;
              Console.password_answer := Console.NoAnswers;
              Console.checkbox_answer := Console.NoAnswers;
              Console.upstream_check_raises := None |} in
  uninterrupted o /\
  shown (snd (Console.display_list o "Stashes" ["a"; "b"] true))
  = [list_title "Stashes"; numbered_line 1 "a"; numbered_line 2 "b";
     Console.Str EmptyString].
Proof.
  intros o.
  assert (uninterrupted o) as Hu by (intros c; discriminate).
  split; [ exact Hu | ].
  destruct (display_list_lines o "Stashes" ["a"; "b"] true Hu)
    as (l & -> & Hs & _).
  exact Hs.
Defined.

(** X18: [show_diff_preview] with a limit that is not negative, on a
    console that is not interrupted.  With no files it shows the one
    message that nothing would be affected.  Otherwise it shows the
    title, the first [limit] files in order, and, only when there are
    more than [limit] files, a last item announcing the number left
    out, so that the files shown and the number announced add up to the
    number of files. *)
Theorem show_diff_preview_lines o files limit :
  uninterrupted o ->
  0 <= limit ->
  exists l,
    Console.show_diff_preview o files limit = (inl tt, l) /\
    match files with
    | [] =>
        shown l
        = [Console.Str (symbol o "info" ++ "  " ++ "No files would be affected.")]
    | _ :: _ =>
        shown l
        = list_title preview_title ::
          map bullet_line (firstn (Z.to_nat limit) files) ++
          (if Py.len files >? limit
           then [bullet_line (more_files_item (Py.len files - limit))]
           else []) ++
          [Console.Str EmptyString] /\
        (limit < Py.len files ->
         Z.of_nat (List.length (firstn (Z.to_nat limit) files))
         + (Py.len files - limit) = Py.len files)
    end.
Proof.
  intros Hu Hl.
  unfold Console.show_diff_preview, Console.except_Exception,
    Console.try_except.
  destruct files as [ | f files ].
  - unfold Console.print_info.
    rewrite getitem_known by (cbn; intuition auto).
    unfold Console.bind.
    destruct (safe_print_shows o
                (Console.Str (symbol o "info" ++ "  "
                                ++ "No files would be affected."))
                (Some "bold blue") Hu) as (l & -> & Hs & _).
    exists l. split; [ reflexivity | exact Hs ].
  - set (all := f :: files).
    unfold Console.slice_to.
    destruct (limit <? 0) eqn:E; [ apply Z.ltb_lt in E; lia | ].
    match goal with
    | |- context [Console.display_list o ?t ?items false] =>
        destruct (display_list_shown o t items false Hu) as (l & -> & Hs & _)
    end.
    exists l. split; [ reflexivity | ]. split.
    + rewrite Hs. fold preview_title. f_equal.
      destruct (Py.len all >? limit).
      * rewrite map_app. cbn [map]. rewrite <- app_assoc. reflexivity.
      * cbn [app]. reflexivity.
    + intros Hlt. rewrite length_firstn. unfold Py.len in *. lia.
Qed.

Lemma show_diff_preview_lines_witness :
  uninterrupted (quiet false) /\ 0 <= 2 /\
  shown (snd (Console.show_diff_preview (quiet false) ["a"; "b"; "c"] 2))
  = [list_title preview_title; bullet_line "a"; bullet_line "b";
     bullet_line (more_files_item 1); Console.Str EmptyString].
Proof.
  assert (uninterrupted (quiet false)) as Hu by (intros c; discriminate).
  assert (0 <= 2) as Hl by lia.
  split; [ exact Hu | ]. split; [ exact Hl | ].
  destruct (show_diff_preview_lines (quiet false) ["a"; "b"; "c"] 2 Hu Hl)
    as (l & -> & Hs & _).
  exact Hs.
Defined.

(** X19: with a negative limit [show_diff_preview] takes the slice
    [files[:limit]], which drops the last [-limit] files, and always adds
    the item about more files, whose number [len(files) - limit] is
    larger than the number of files there are. *)
Theorem show_diff_preview_negative_limit o files limit :
  uninterrupted o ->
  files <> [] ->
  limit < 0 ->
  exists l,
    Console.show_diff_preview o files limit = (inl tt, l) /\
    shown l
    = list_title preview_title ::
      map bullet_line (firstn (Z.to_nat (Py.len files + limit)) files) ++
      [bullet_line (more_files_item (Py.len files - limit));
       Console.Str EmptyString] /\
    Py.len files < Py.len files - limit.
Proof.
  intros Hu Hne Hl.
  unfold Console.show_diff_preview, Console.except_Exception,
    Console.try_except.
  destruct files as [ | f files ]; [ contradiction | ].
  set (all := f :: files).
  unfold Console.slice_to.
  destruct (limit <? 0) eqn:E; [ | apply Z.ltb_ge in E; lia ].
  assert ((Py.len all >? limit) = true) as Hgt.
  { rewrite Z.gtb_ltb. apply Z.ltb_lt. unfold Py.len. lia. }
  rewrite Hgt.
  match goal with
  | |- context [Console.display_list o ?t ?items false] =>
      destruct (display_list_shown o t items false Hu) as (l & -> & Hs & _)
  end.
  exists l. split; [ reflexivity | ]. split; [ | lia ].
  rewrite Hs. fold preview_title. f_equal.
  rewrite map_app. cbn [map]. rewrite <- app_assoc. reflexivity.
Qed.

Lemma show_diff_preview_negative_limit_witness :
  uninterrupted (quiet false) /\ ["a"; "b"; "c"] <> [] /\ (-1) < 0 /\
  shown (snd (Console.show_diff_preview (quiet false) ["a"; "b"; "c"] (-1)))
  = [list_title preview_title; bullet_line "a"; bullet_line "b";
     bullet_line (more_files_item 4); Console.Str EmptyString].
Proof.
  assert (uninterrupted (quiet false)) as Hu by (intros c; discriminate).
  assert (["a"; "b"; "c"] <> @nil string) as Hne by discriminate.
  assert ((-1) < 0) as Hl by lia.
  split; [ exact Hu | ]. split; [ exact Hne | ]. split; [ exact Hl | ].
  destruct (show_diff_preview_negative_limit (quiet false) ["a"; "b"; "c"]
              (-1) Hu Hne Hl) as (l & -> & Hs & _).
  exact Hs.
Defined.

Lemma substring_prefix_length (n : nat) (s : string) :
  String.length (substring 0 n s) = Nat.min n (String.length s) /\
  prefix (substring 0 n s) s = true.
Proof.
  revert s. induction n as [ | n IH ]; intros s.
  - destruct s; split; reflexivity.
  - destruct s as [ | c s ]; [ split; reflexivity | ].
    cbn [substring String.length prefix Nat.min].
    destruct (IH s) as (Hl & Hp). rewrite Hl, Hp.
    split; [ reflexivity | ].
    destruct (ascii_dec c c); [ reflexivity | contradiction ].
Qed.

Lemma add_commits_map o commits :
  forall branches,
    Console.add_commits o commits branches
    = (inl (branches ++ map (commit_branch o) commits), []).
Proof.
  induction commits as [ | c commits IH ]; intros branches.
  - cbn. now rewrite app_nil_r.
  - cbn [Console.add_commits map].
    rewrite getitem_known by (cbn; intuition auto).
    unfold Console.bind. rewrite IH. rewrite <- app_assoc. reflexivity.
Qed.

(** X20: on a console that is not interrupted [display_git_graph]
    returns and shows one tree: under the title, one branch for each
    commit in the order given, each with the message as its only child.
    The hash is cut to its first eight characters, and a missing hash,
    author or date reads "unknown", a missing message "no message". *)
Theorem display_git_graph_tree o commits :
  uninterrupted o ->
  exists l,
    Console.display_git_graph o commits = (inl tt, l) /\
    shown l
    = [Console.Tree (symbol o "clipboard" ++ " Commit History")
         (map (commit_branch o) commits)] /\
    forall h,
      String.length (substring 0 8 h) = Nat.min 8 (String.length h) /\
      prefix (substring 0 8 h) h = true.
Proof.
  intros Hu.
  unfold Console.display_git_graph, Console.except_Exception,
    Console.try_except.
  rewrite getitem_known by (cbn; intuition auto).
  unfold Console.bind. rewrite add_commits_map. cbn [app].
  destruct (safe_print_shows o
              (Console.Tree (symbol o "clipboard" ++ " Commit History")
                 (map (commit_branch o) commits)) None Hu)
    as (l & -> & Hs & _).
  exists l. split; [ reflexivity | ]. split; [ exact Hs | ].
  intros h. apply substring_prefix_length.
Qed.

Lemma display_git_graph_tree_witness :
  uninterrupted (quiet false) /\
  shown (snd (Console.display_git_graph (quiet false)
                [{| Console.hash := Some "0123456789abcdef";
                    Console.author := None;
                    Console.message := None;
                    Console.date := Some "today" |}]))
  = [Console.Tree "# Commit History"
       [Console.Tree
          "[yellow]01234567[/yellow] [green]unknown[/green] [dim]today[/dim]"
          [Console.Tree "+ no message" []]]].
Proof.
  assert (uninterrupted (quiet false)) as Hu by (intros c; discriminate).
  split; [ exact Hu | ].
  destruct (display_git_graph_tree (quiet false)
              [{| Console.hash := Some "0123456789abcdef";
                  Console.author := None;
                  Console.message := None;
                  Console.date := Some "today" |}] Hu) as (l & -> & Hs & _).
  exact Hs.
Defined.

(** *** The blocks of the status summary *)

Lemma closed_app l1 l2 : closed l1 -> closed l2 -> closed (l1 ++ l2).
Proof.
  intros H1 [ -> | (b2 & ->) ].
  - now rewrite app_nil_r.
  - right. exists (l1 ++ b2). now rewrite app_assoc.
Qed.

Lemma closed_last l d : closed l -> l <> [] -> last l d = EmptyString.
Proof.
  intros [ -> | (b & ->) ] Hne; [ contradiction | apply last_last ].
Qed.

Lemma closed_end body : closed (body ++ [EmptyString]).
Proof. right. now exists body. Qed.

Lemma slice_to_length {A} (l : list A) (cap : Z) :
  0 <= cap -> Z.of_nat (List.length (Console.slice_to l cap)) <= cap.
Proof.
  intros Hc. unfold Console.slice_to.
  destruct (cap <? 0) eqn:E; [ apply Z.ltb_lt in E; lia | ].
  rewrite length_firstn. lia.
Qed.

Lemma more_files_length {A} (l : list A) (cap : Z) :
  (List.length (Console.more_files l cap) <= 1)%nat.
Proof. unfold Console.more_files. destruct (_ >? _); cbn; lia. Qed.

Ltac cap_bound :=
  cbn [List.length]; rewrite ?length_app, ?length_map; cbn [List.length];
  unfold Console.slice_to; cbn [Z.ltb Z.compare Z.to_nat];
  rewrite ?length_firstn;
  match goal with
  | |- context [Console.more_files ?l ?c] =>
      pose proof (more_files_length l c)
  end;
  lia.

Ltac known_symbols :=
  rewrite ?getitem_known by (cbn; intuition auto); unfold Console.bind.

Lemma repo_state_block_lines o st content :
  Console.repo_state_block o st content
  = (inl (content ++ lines_of (Console.repo_state_block o st [])), []) /\
  closed (lines_of (Console.repo_state_block o st [])) /\
  (List.length (lines_of (Console.repo_state_block o st [])) <= 3)%nat.
Proof.
  unfold Console.repo_state_block.
  destruct (Console.truthy_str (Console.repo_state st)).
  - set (state := Console.get_default (Console.repo_state st) EmptyString).
    destruct (String.eqb state "MERGING");
      [ | destruct (String.eqb state "REBASING");
          [ | destruct (String.eqb state "CHERRY-PICKING");
              [ | destruct (String.eqb state "REVERTING");
                  [ | destruct (String.eqb state "BISECTING") ] ] ] ];
      known_symbols; cbn; unfold lines_of; cbn;
      rewrite <- ?app_assoc; cbn;
      (split; [ reflexivity | ]);
      (split; [ | lia ]).
    + apply (closed_end [_; _]).
    + apply (closed_end [_; _]).
    + apply (closed_end [_; _]).
    + apply (closed_end [_; _]).
    + apply (closed_end [_; _]).
    + apply (closed_end []).
  - unfold lines_of. cbn. rewrite app_nil_r.
    split; [ reflexivity | ]. split; [ now left | lia ].
Qed.

Lemma branch_block_lines o st content :
  Console.branch_block o st content
  = (inl (content ++ lines_of (Console.branch_block o st [])), []) /\
  closed (lines_of (Console.branch_block o st [])) /\
  (List.length (lines_of (Console.branch_block o st [])) <= 5)%nat.
Proof.
  unfold Console.branch_block.
  destruct (Console.truthy_str (Console.branch st)).
  - known_symbols.
    destruct (Console.truthy_str (Console.remote_branch st)).
    + destruct ((Console.get_default (Console.ahead st) 0 >? 0)
                && (Console.get_default (Console.behind st) 0 >? 0));
        [ | destruct (Console.get_default (Console.ahead st) 0 >? 0);
            [ | destruct (Console.get_default (Console.behind st) 0 >? 0) ] ];
        cbn; unfold lines_of; cbn; rewrite <- ?app_assoc; cbn;
        (split; [ reflexivity | ]); (split; [ | lia ]).
      * apply (closed_end [_; _; _; _]).
      * apply (closed_end [_; _; _]).
      * apply (closed_end [_; _; _]).
      * apply (closed_end [_; _]).
    + destruct (Console.upstream_check_raises o);
        cbn; unfold lines_of; cbn; rewrite <- ?app_assoc; cbn;
        (split; [ reflexivity | ]); (split; [ | lia ]).
      * apply (closed_end [_; _]).
      * apply (closed_end [_]).
  - unfold lines_of. cbn. rewrite app_nil_r.
    split; [ reflexivity | ]. split; [ now left | lia ].
Qed.

Lemma truthy_list_value {A} (x : option (list A)) :
  Console.truthy_list x = true ->
  exists a l, x = Some (a :: l) /\ Console.get_default x [] = a :: l.
Proof.
  destruct x as [ [ | a l ] | ]; try discriminate. intros _. now exists a, l.
Qed.

Lemma conflicts_block_lines o st content :
  Console.conflicts_block o st content
  = (inl (content ++ lines_of (Console.conflicts_block o st [])), []) /\
  closed (lines_of (Console.conflicts_block o st [])) /\
  (List.length (lines_of (Console.conflicts_block o st [])) <= 18)%nat /\
  (lines_of (Console.conflicts_block o st []) = [] <->
   Console.truthy_list (Console.merge_conflicts st) = false).
Proof.
  unfold Console.conflicts_block.
  destruct (Console.truthy_list (Console.merge_conflicts st)).
  - known_symbols. cbn. unfold lines_of. cbn.
    split; [ reflexivity | ]. split.
    { match goal with
      | |- closed (?a :: ?b :: ?c :: ?d :: ?e :: ?f :: ?m ++ ?r ++ [_]) =>
          replace (a :: b :: c :: d :: e :: f :: m ++ r ++ [EmptyString])
            with ((a :: b :: c :: d :: e :: f :: m ++ r) ++ [EmptyString])
            by (cbn; now rewrite <- app_assoc)
      end.
      apply closed_end. }
    split.
    { cap_bound. }
    split; discriminate.
  - unfold lines_of. cbn. rewrite app_nil_r.
    split; [ reflexivity | ]. split; [ now left | ].
    split; [ lia | ]. now split.
Qed.

Lemma staged_files_nil st :
  Console.staged_files st = [] <->
  Console.truthy_list (Console.staged st) = false /\
  Console.truthy_list (Console.renamed st) = false /\
  Console.truthy_list (Console.copied st) = false.
Proof.
  unfold Console.staged_files.
  destruct (Console.truthy_list (Console.staged st)) eqn:E1;
    destruct (Console.truthy_list (Console.renamed st)) eqn:E2;
    destruct (Console.truthy_list (Console.copied st)) eqn:E3;
    repeat match goal with
      | H : Console.truthy_list _ = true |- _ =>
          apply truthy_list_value in H; destruct H as (? & ? & _ & ->)
      end;
    cbn; split; try discriminate; try tauto;
    intros (? & ? & ?); discriminate.
Qed.

Lemma staged_block_lines st content :
  Console.staged_block st content = content ++ Console.staged_block st [] /\
  closed (Console.staged_block st []) /\
  (List.length (Console.staged_block st []) <= 19)%nat /\
  (Console.staged_block st [] = [] <-> Console.staged_files st = []).
Proof.
  unfold Console.staged_block.
  destruct (Console.staged_files st) as [ | e l ] eqn:E.
  - rewrite app_nil_r. split; [ reflexivity | ].
    split; [ now left | ]. split; [ cbn; lia | ]. now split.
  - split; [ reflexivity | ]. cbn [app]. split.
    { match goal with
      | |- closed (?a :: ?b :: ?m ++ ?r ++ [_]) =>
          replace (a :: b :: m ++ r ++ [EmptyString])
            with ((a :: b :: m ++ r) ++ [EmptyString])
            by (cbn; now rewrite <- app_assoc)
      end.
      apply closed_end. }
    split.
    { cap_bound. }
    split; discriminate.
Qed.

Lemma modified_block_lines st content :
  Console.modified_block st content = content ++ Console.modified_block st [] /\
  closed (Console.modified_block st []) /\
  (List.length (Console.modified_block st []) <= 20)%nat /\
  (Console.modified_block st [] = [] <->
   Console.truthy_list (Console.modified st) = false).
Proof.
  unfold Console.modified_block.
  destruct (Console.truthy_list (Console.modified st)).
  - split; [ reflexivity | ]. cbn [app]. split.
    { match goal with
      | |- closed (?a :: ?b :: ?c :: ?m ++ ?r ++ [_]) =>
          replace (a :: b :: c :: m ++ r ++ [EmptyString])
            with ((a :: b :: c :: m ++ r) ++ [EmptyString])
            by (cbn; now rewrite <- app_assoc)
      end.
      apply closed_end. }
    split.
    { cap_bound. }
    split; discriminate.
  - rewrite app_nil_r. split; [ reflexivity | ].
    split; [ now left | ]. split; [ cbn; lia | ]. now split.
Qed.

Lemma untracked_block_lines st content :
  Console.untracked_block st content
  = content ++ Console.untracked_block st [] /\
  closed (Console.untracked_block st []) /\
  (List.length (Console.untracked_block st []) <= 19)%nat /\
  (Console.untracked_block st [] = [] <->
   Console.truthy_list (Console.untracked st) = false).
Proof.
  unfold Console.untracked_block.
  destruct (Console.truthy_list (Console.untracked st)).
  - split; [ reflexivity | ]. cbn [app]. split.
    { match goal with
      | |- closed (?a :: ?b :: ?m ++ ?r ++ [_]) =>
          replace (a :: b :: m ++ r ++ [EmptyString])
            with ((a :: b :: m ++ r) ++ [EmptyString])
            by (cbn; now rewrite <- app_assoc)
      end.
      apply closed_end. }
    split.
    { cap_bound. }
    split; discriminate.
  - rewrite app_nil_r. split; [ reflexivity | ].
    split; [ now left | ]. split; [ cbn; lia | ]. now split.
Qed.

Lemma stash_block_lines o st content :
  Console.stash_block o st content
  = (inl (content ++ lines_of (Console.stash_block o st [])), []) /\
  closed (lines_of (Console.stash_block o st [])) /\
  (List.length (lines_of (Console.stash_block o st [])) <= 3)%nat.
Proof.
  unfold Console.stash_block.
  destruct (Console.get_default (Console.stash_count st) 0 >? 0).
  - known_symbols. cbn. unfold lines_of. cbn.
    split; [ reflexivity | ]. split; [ apply (closed_end [_; _]) | lia ].
  - unfold lines_of. cbn. rewrite app_nil_r.
    split; [ reflexivity | ]. split; [ now left | lia ].
Qed.

Lemma clean_block_lines o st content :
  Console.clean_block o st content
  = (inl (content ++ if Console.no_changes st then [clean_line o st] else []),
     []).
Proof.
  unfold Console.clean_block, clean_line.
  destruct (Console.no_changes st); [ | now rewrite app_nil_r ].
  destruct ((Console.get_default (Console.ahead st) 0 =? 0)
            && (Console.get_default (Console.behind st) 0 =? 0));
    known_symbols; reflexivity.
Qed.

Lemma status_content_lines o st :
  Console.status_content o st
  = (inl (lines_of (Console.repo_state_block o st []) ++
          lines_of (Console.branch_block o st []) ++
          lines_of (Console.conflicts_block o st []) ++
          Console.staged_block st [] ++
          Console.modified_block st [] ++
          Console.untracked_block st [] ++
          lines_of (Console.stash_block o st []) ++
          (if Console.no_changes st then [clean_line o st] else [])), []).
Proof.
  unfold Console.status_content, Console.bind.
  destruct (repo_state_block_lines o st []) as (-> & _). cbn [app].
  destruct (branch_block_lines o st
              (lines_of (Console.repo_state_block o st []))) as (-> & _).
  match goal with
  | |- context [Console.conflicts_block o st ?c] =>
      destruct (conflicts_block_lines o st c) as (-> & _)
  end.
  match goal with
  | |- context [Console.staged_block st ?c] =>
      destruct (staged_block_lines st c) as (-> & _)
  end.
  match goal with
  | |- context [Console.modified_block st ?c] =>
      destruct (modified_block_lines st c) as (-> & _)
  end.
  match goal with
  | |- context [Console.untracked_block st ?c] =>
      destruct (untracked_block_lines st c) as (-> & _)
  end.
  match goal with
  | |- context [Console.stash_block o st ?c] =>
      destruct (stash_block_lines o st c) as (-> & _)
  end.
  rewrite clean_block_lines. cbn [app].
  now rewrite <- !app_assoc.
Qed.

Lemma no_changes_blocks o st :
  Console.no_changes st = true <->
  lines_of (Console.conflicts_block o st []) = [] /\
  Console.staged_block st [] = [] /\
  Console.modified_block st [] = [] /\
  Console.untracked_block st [] = [].
Proof.
  destruct (conflicts_block_lines o st []) as (_ & _ & _ & Hc).
  destruct (staged_block_lines st []) as (_ & _ & _ & Hs).
  destruct (modified_block_lines st []) as (_ & _ & _ & Hm).
  destruct (untracked_block_lines st []) as (_ & _ & _ & Hu).
  rewrite Hc, Hs, Hm, Hu, staged_files_nil.
  unfold Console.no_changes.
  destruct (Console.truthy_list (Console.staged st)),
    (Console.truthy_list (Console.modified st)),
    (Console.truthy_list (Console.untracked st)),
    (Console.truthy_list (Console.merge_conflicts st)),
    (Console.truthy_list (Console.renamed st)),
    (Console.truthy_list (Console.copied st)); cbn; intuition congruence.
Qed.

Lemma status_content_nonempty o st :
  lines_of (Console.status_content o st) <> [].
Proof.
  unfold lines_of. rewrite status_content_lines. cbn [fst].
  assert (forall (a b : list string), b <> [] -> a ++ b <> []) as Happ.
  { intros a b Hb H. apply app_eq_nil in H. tauto. }
  destruct (Console.no_changes st) eqn:E.
  - do 7 apply Happ. discriminate.
  - assert (~ (lines_of (Console.conflicts_block o st []) = [] /\
               Console.staged_block st [] = [] /\
               Console.modified_block st [] = [] /\
               Console.untracked_block st [] = [])) as H.
    { rewrite <- (no_changes_blocks o st). congruence. }
    do 2 apply Happ.
    destruct (lines_of (Console.conflicts_block o st []));
      [ | discriminate ].
    destruct (Console.staged_block st []); [ | discriminate ].
    destruct (Console.modified_block st []); [ | discriminate ].
    destruct (Console.untracked_block st []); [ | discriminate ].
    tauto.
Qed.

Lemma status_summary_cases o st :
  Console.display_status_summary o st
  = let text :=
      Console.Str (Console.join LF (lines_of (Console.status_content o st))) in
    match Console.console_print_raises o text with
    | None => (inl tt, [Console.ConsolePrint text None])
    | Some Console.KeyboardInterrupt => (inr Console.KeyboardInterrupt, [])
    | Some e =>
        let '(r, l) :=
          Console.print_error o
            ("Failed to display status: " ++ Console.exc_text e) in
        (r, Console.Logged ("Status display failed: " ++ Console.exc_text e)
              :: l)
    end.
Proof.
  pose proof (status_content_nonempty o st) as Hne.
  unfold Console.display_status_summary, Console.except_Exception,
    Console.try_except, Console.bind.
  unfold lines_of in *. rewrite status_content_lines in *. cbn [fst] in *.
  match goal with
  | |- context [match ?c with [] => _ | _ :: _ => _ end] =>
      destruct c as [ | x rest ] eqn:E; [ contradiction | ]
  end.
  unfold Console.console_print. cbv zeta.
  match goal with
  | |- context [Console.console_print_raises o ?c] =>
      destruct (Console.console_print_raises o c) as [ [ | key | text ] | ]
  end; try reflexivity.
  - unfold Console.logger_error, Console.emit, Console.raise.
    cbn [app Console.exc_text].
    destruct (Console.print_error o _) as (r, l). reflexivity.
  - unfold Console.logger_error, Console.emit, Console.raise.
    cbn [app Console.exc_text].
    destruct (Console.print_error o _) as (r, l). reflexivity.
Qed.

(** X21: the list of lines of the status summary is never empty, so the
    test [if content:] never skips the display: when the console prints
    it, [display_status_summary] makes exactly one call of
    [console.print], with the lines joined by line feeds, and logs
    nothing. *)
Theorem status_summary_never_empty o st :
  exists content,
    Console.status_content o st = (inl content, []) /\
    content <> [] /\
    match
      Console.console_print_raises o (Console.Str (Console.join LF content))
    with
    | None =>
        Console.display_status_summary o st
        = (inl tt,
           [Console.ConsolePrint (Console.Str (Console.join LF content)) None])
    | Some _ => True
    end.
Proof.
  pose proof (status_content_nonempty o st) as Hne.
  pose proof (status_summary_cases o st) as Hc. cbv zeta in Hc.
  unfold lines_of in Hne, Hc.
  rewrite status_content_lines in Hne, Hc. cbn [fst] in Hne, Hc.
  eexists. split; [ apply status_content_lines | ].
  split; [ exact Hne | ].
  match goal with
  | |- match ?p with None => _ | Some _ => True end =>
      destruct p eqn:Hp; [ exact I | exact Hc ]
  end.
Qed.

(** X22: however many files the status lists, the summary has at most 87
    lines, and at most 12 when nothing is staged, modified, untracked,
    conflicting, renamed or copied: each list of files is cut after its
    first 10 (conflicts) or 15 entries. *)
Theorem status_summary_bounded o st :
  let content := lines_of (Console.status_content o st) in
  (1 <= List.length content <= 87)%nat /\
  (Console.no_changes st = true -> (List.length content <= 12)%nat).
Proof.
  intros content. unfold content, lines_of.
  rewrite status_content_lines. cbn [fst].
  destruct (repo_state_block_lines o st []) as (_ & _ & Hr).
  destruct (branch_block_lines o st []) as (_ & _ & Hb).
  destruct (conflicts_block_lines o st []) as (_ & _ & Hc & _).
  destruct (staged_block_lines st []) as (_ & _ & Hs & _).
  destruct (modified_block_lines st []) as (_ & _ & Hm & _).
  destruct (untracked_block_lines st []) as (_ & _ & Hu & _).
  destruct (stash_block_lines o st []) as (_ & _ & Ht).
  pose proof (no_changes_blocks o st) as Hn.
  rewrite !length_app.
  destruct (Console.no_changes st) eqn:E.
  - destruct Hn as ((H1 & H2 & H3 & H4) & _); [ reflexivity | ].
    rewrite H1, H2, H3, H4. cbn [List.length]. split; [ lia | ].
    intros _. lia.
  - cbn [List.length]. split; [ | discriminate ].
    split; [ | lia ].
    assert (~ (lines_of (Console.conflicts_block o st []) = [] /\
               Console.staged_block st [] = [] /\
               Console.modified_block st [] = [] /\
               Console.untracked_block st [] = [])) as H.
    { rewrite <- Hn. discriminate. }
    destruct (lines_of (Console.conflicts_block o st []));
      [ | cbn [List.length]; lia ].
    destruct (Console.staged_block st []); [ | cbn [List.length]; lia ].
    destruct (Console.modified_block st []); [ | cbn [List.length]; lia ].
    destruct (Console.untracked_block st []); [ | cbn [List.length]; lia ].
    tauto.
Qed.

Lemma status_summary_bounded_witness :
  let st := {| Console.repo_state := None; Console.branch := Some "main";
               Console.remote_branch := None;
               Console.ahead := None; Console.behind := None;
               Console.merge_conflicts := None; Console.staged := None;
               Console.renamed := None; Console.copied := None;
               Console.modified := None; Console.untracked := Some [];
               Console.stash_count := Some 0 |} in
  Console.no_changes st = true /\
  (List.length (lines_of (Console.status_content (quiet false) st)) <= 12)%nat.
Proof.
  intros st. split; [ reflexivity | ].
  destruct (status_summary_bounded (quiet false) st) as (_ & H).
  apply H. reflexivity.
Defined.

(** X23: the summary ends with the line about a clean working tree
    exactly when nothing is staged, modified, untracked, conflicting,
    renamed or copied; that line says "Nothing to commit, working tree
    clean" when the branch is neither ahead nor behind and "Working
    tree clean" otherwise.  When there are such changes the summary
    ends with an empty line. *)
Theorem status_summary_last_line o st :
  let content := lines_of (Console.status_content o st) in
  (if Console.no_changes st
   then last content EmptyString = clean_line o st
   else last content EmptyString = EmptyString) /\
  clean_line o st <> EmptyString.
Proof.
  intros content. split; [ | discriminate ].
  unfold content, lines_of. rewrite status_content_lines. cbn [fst].
  destruct (Console.no_changes st) eqn:E.
  - rewrite !app_assoc. apply last_last.
  - rewrite !app_nil_r.
    destruct (repo_state_block_lines o st []) as (_ & Hr & _).
    destruct (branch_block_lines o st []) as (_ & Hb & _).
    destruct (conflicts_block_lines o st []) as (_ & Hc & _).
    destruct (staged_block_lines st []) as (_ & Hs & _).
    destruct (modified_block_lines st []) as (_ & Hm & _).
    destruct (untracked_block_lines st []) as (_ & Hu & _).
    destruct (stash_block_lines o st []) as (_ & Ht & _).
    apply closed_last.
    + repeat apply closed_app; assumption.
    + assert (~ (lines_of (Console.conflicts_block o st []) = [] /\
                 Console.staged_block st [] = [] /\
                 Console.modified_block st [] = [] /\
                 Console.untracked_block st [] = [])) as H.
      { rewrite <- (no_changes_blocks o st). congruence. }
      intros Hnil.
      repeat match goal with
        | H : _ ++ _ = [] |- _ => apply app_eq_nil in H; destruct H
        end.
      tauto.
Qed.

Lemma print_error_shows o message :
  uninterrupted o ->
  exists l,
    Console.print_error o message = (inl tt, l) /\
    shown l = [Console.Str (symbol o "error" ++ " " ++ message)] /\
    asked l = [].
Proof.
  intros Hu. unfold Console.print_error.
  rewrite getitem_known by (cbn; intuition auto).
  unfold Console.bind.
  destruct (safe_print_shows o
              (Console.Str (symbol o "error" ++ " " ++ message))
              (Some "bold red"%string) Hu) as (l & -> & Hs & Ha).
  exists l. cbn [app]. auto.
Qed.

(** X24: on a console that is not interrupted, [display_status_summary]
    always returns, asks nothing and shows exactly one thing: the
    summary, its lines joined by line feeds, or, when the console
    raises on it, the error line "Failed to display status: ..." with
    the text of the exception, which is logged first. *)
Theorem status_summary_failure_reported o st :
  uninterrupted o ->
  let text := Console.join LF (lines_of (Console.status_content o st)) in
  exists l,
    Console.display_status_summary o st = (inl tt, l) /\
    asked l = [] /\
    match Console.console_print_raises o (Console.Str text) with
    | None => l = [Console.ConsolePrint (Console.Str text) None]
    | Some e =>
        hd_error l
        = Some (Console.Logged
                  ("Status display failed: " ++ Console.exc_text e)) /\
        shown l
        = [Console.Str (symbol o "error" ++ " Failed to display status: "
                          ++ Console.exc_text e)]
    end.
Proof.
  intros Hu text. rewrite status_summary_cases. cbv zeta. fold text.
  pose proof (Hu (Console.Str text)) as Hi.
  destruct (Console.console_print_raises o (Console.Str text))
    as [ e | ] eqn:Hp.
  - destruct (print_error_shows o
                ("Failed to display status: " ++ Console.exc_text e) Hu)
      as (l & Hl & Hs & Ha).
    exists (Console.Logged ("Status display failed: " ++ Console.exc_text e)
              :: l).
    destruct e as [ | key | t ]; [ congruence | | ];
      rewrite Hl; repeat split; auto.
  - eexists. repeat split.
Qed.

Lemma status_summary_failure_reported_witness :
  let o := {| Console.can_use_emoji := false;
              Console.console_print_raises :=
                fun c =>
                  match c with
                  | Console.Str (String "[" _) =>
                      Some (Console.Failure "encoding")
                  | _ => None
                  end;
              Console.confirm_answer := Console.NoAnswers;
              Console.text_answer := Console.NoAnswers;
              Console.password_answer := Console.NoAnswers;
              Console.checkbox_answer := Console.NoAnswers;
              Console.upstream_check_raises := None |} in
  let st := {| Console.repo_state := None; Console.branch := None;
               Console.remote_branch := None;
               Console.ahead := None; Console.behind := None;
               Console.merge_conflicts := None; Console.staged := None;
               Console.renamed := None; Console.copied := None;
               Console.modified := None; Console.untracked := None;
               Console.stash_count := None |} in
  uninterrupted o /\
  exists l,
    Console.display_status_summary o st = (inl tt, l) /\
    shown l = [Console.Str "X Failed to display status: encoding"].
Proof.
  intros o st.
  assert (uninterrupted o) as Hu.
  { intros c. destruct c as [ [ | a s ] | label branches ]; cbn;
      try discriminate.
    destruct (Ascii.eqb a "[") eqn:E.
    - apply Ascii.eqb_eq in E. subst a. discriminate.
    - destruct a as [[] [] [] [] [] [] [] []]; discriminate. }
  split; [ exact Hu | ].
  destruct (status_summary_failure_reported o st Hu) as (l & Hl & _ & Hm).
  exists l. split; [ exact Hl | ].
  cbn in Hm. destruct Hm as (_ & Hs). exact Hs.
Defined.
